(** * usb-proxy: the EP0 engine of the USB proxy, embedded in Rocq

    The development follows [src/usb-proxy.py].  Byte strings are lists of
    [byte]; the raw-gadget ioctls and the calls on the upstream device are
    answered by an environment [Env], whose answers may depend on every
    effect performed so far; methods of [USBProxy] are computations in a
    state-and-exception monad over the fields of the object, a mutation
    made before an exception is raised stays visible after it is caught,
    as in Python. *)

From Stdlib Require Import ZArith List Bool Lia.
From Stdlib.Strings Require Import Byte.
From stdpp Require Import base option list gmap.

Local Open Scope Z_scope.

(** ** Byte strings, slices and [struct] *)

Abbreviation bytes := (list byte).

(** The integer value of a byte, as Python reads [data[i]]. *)
Definition u8 (b : byte) : Z := Z.of_N (Byte.to_N b).

(** [bytes([z])] and the [B] field of [struct.pack], for [0 <= z < 256]. *)
Definition byte_of_Z (z : Z) : byte :=
  match Byte.of_N (Z.to_N (z mod 256)) with
  | Some b => b
  | None => x00
  end.

(** Little-endian unsigned integer: [struct.unpack("<I", bs)] and ["<H"]. *)
Fixpoint le_uint (bs : bytes) : Z :=
  match bs with
  | [] => 0
  | b :: rest => u8 b + 256 * le_uint rest
  end.

(** [struct.pack("<H", z)]. *)
Definition pack_u16 (z : Z) : bytes := [byte_of_Z z; byte_of_Z (z / 256)].

(** The Python slice [l[lo:hi]] for non-negative bounds. *)
Definition slice {A} (lo hi : nat) (l : list A) : list A :=
  take (hi - lo) (drop lo l).

(** The Python slice [l[:n]] for an unsigned field [n]. *)
Definition upto {A} (n : Z) (l : list A) : list A := take (Z.to_nat n) l.

(** [fcntl.ioctl(fd, req, buf, True)] on a [bytearray]: the kernel writes
    into the caller's buffer, whose size does not change. *)
Definition ioctl_into (buf kernel : bytes) : bytes :=
  take (length buf) (kernel ++ drop (length kernel) buf).

(** ** Constants *)

Definition USB_RAW_EVENT_CONNECT : Z := 1.
Definition USB_RAW_EVENT_CONTROL : Z := 2.
Definition USB_RAW_EVENT_SUSPEND : Z := 3.
Definition USB_RAW_EVENT_RESUME : Z := 4.
Definition USB_RAW_EVENT_RESET : Z := 5.
Definition USB_RAW_EVENT_DISCONNECT : Z := 6.

Definition USB_DIR_IN : Z := 128.
Definition USB_TYPE_STANDARD : Z := 0.
Definition USB_TYPE_MASK : Z := 96.
Definition USB_REQ_GET_STATUS : Z := 0.
Definition USB_REQ_SET_ADDRESS : Z := 5.
Definition USB_REQ_GET_DESCRIPTOR : Z := 6.
Definition USB_REQ_GET_CONFIGURATION : Z := 8.
Definition USB_REQ_SET_CONFIGURATION : Z := 9.

Definition USB_DT_DEVICE : Z := 1.
Definition USB_DT_CONFIG : Z := 2.
Definition USB_DT_STRING : Z := 3.

(** ** [fetch_event] *)

(** [bytearray(8 + 4096)]. *)
Definition event_buffer_size : nat := 8 + 4096.
Definition fresh_event_buffer : bytes := replicate event_buffer_size x00.

(** The [length] field of the header, before the guard. *)
Definition header_length (event_buffer : bytes) : Z :=
  le_uint (slice 4 8 event_buffer).

(** The guard against an invalid length. *)
Definition guarded_length (event_length : Z) : Z :=
  if 4096 <? event_length then 0 else event_length.

(** [fetch_event]: [raw] is what the EVENT_FETCH ioctl did, [None] when it
    raised [OSError], [Some k] when the kernel wrote [k] into the buffer. *)
Definition fetch_event (raw : option bytes) : Z * bytes :=
  match raw with
  | None => (0, [])
  | Some kernel =>
      let event_buffer := ioctl_into fresh_event_buffer kernel in
      let event_type := le_uint (slice 0 4 event_buffer) in
      let event_length := guarded_length (header_length event_buffer) in
      (event_type,
       slice 8 (8 + Z.to_nat event_length) event_buffer)
  end.

(** ** The upstream device and the effects of the proxy *)

(** [struct.unpack("<BBHHH", ctrl_data[:8])]. *)
Record setup := Setup {
  bmRequestType : Z;
  bRequest : Z;
  wValue : Z;
  wIndex : Z;
  wLength : Z
}.

Definition unpack_setup (ctrl_data : bytes) : option setup :=
  match take 8 ctrl_data with
  | [b0; b1; b2; b3; b4; b5; b6; b7] =>
      Some (Setup (u8 b0) (u8 b1) (le_uint [b2; b3]) (le_uint [b4; b5])
                  (le_uint [b6; b7]))
  | _ => None
  end.

(** The descriptor tree of the upstream device, as the USB library
    iterates it: configurations, their interfaces (every alternate
    setting), their endpoints. *)
Record endpoint := Endpoint {
  bEndpointAddress : Z;
  bmAttributes : Z;
  wMaxPacketSize : Z;
  bInterval : Z
}.

Record interface := Interface {
  bInterfaceNumber : Z;
  bAlternateSetting : Z;
  intf_endpoints : list endpoint
}.

Record configuration := Configuration {
  bConfigurationValue : Z;
  cfg_interfaces : list interface
}.

(** The four forwarder threads, with the arguments of their targets. *)
Inductive worker :=
| InReader (ep_addr ep_type : Z)
| InWriter (ep_num : Z)
| OutReader (ep_num ep_type : Z)
| OutWriter (ep_addr : Z).

(** What the main thread does to the outside: calls on the upstream
    device, raw-gadget ioctls, thread operations, and writes of the flag
    that the forwarder threads poll. *)
Inductive effect :=
| UpSetConfiguration (value : Z)
| UpCtrlTransferIn (p : setup)
| UpCtrlTransferOut (p : setup) (data : option bytes)
| UpReset
| GadgetConfigure
| GadgetEpEnable (descriptor : bytes)
| GadgetEp0Read (len : Z)
| GadgetEp0Write (data : bytes)
| GadgetEp0Stall
| ThreadStart (w : worker)
| ThreadJoin (w : worker)
| SetEndpointsRunning (b : bool).

(** The environment.  Every answer may depend on the effects performed so
    far.  [false] and [None] stand for a raised exception ([USBError] for
    the device, [OSError] for an ioctl). *)
Record Env := {
  dev_configurations : list configuration;
  dev_set_configuration : list effect -> Z -> bool;
  dev_ctrl_transfer_in : list effect -> setup -> option bytes;
  dev_ctrl_transfer_out : list effect -> setup -> option bytes -> option Z;
  dev_reset : list effect -> bool;
  ioctl_configure : list effect -> bool;
  ioctl_ep_enable : list effect -> bytes -> option Z;
  ioctl_ep0_read : list effect -> Z -> option bytes;
  ioctl_ep0_write : list effect -> bytes -> option Z;
  ioctl_ep0_stall : list effect -> bool;
  thread_is_alive : list effect -> worker -> bool
}.

(** ** The state *)

(** The fields of [USBProxy] that the EP0 engine reads or writes, the
    local variable [configured] of [ep0_loop], and the effects performed
    so far.  [usb_device] and [gadget_fd] are set before [ep0_loop] runs
    ([run] raises otherwise) and are never reassigned. *)
Record state := State {
  running : bool;
  endpoint_threads : list worker;
  endpoint_queues : gmap Z (list bytes);
  device_descriptor : option bytes;
  config_descriptors : gmap Z bytes;
  string_descriptors : gmap Z bytes;
  host_connected : bool;
  device_configured : bool;
  endpoints_running : bool;
  configured : bool;
  trace : list effect
}.

Definition set_endpoint_threads (v : list worker) (s : state) : state :=
  State (running s) v (endpoint_queues s) (device_descriptor s)
        (config_descriptors s) (string_descriptors s) (host_connected s)
        (device_configured s) (endpoints_running s) (configured s) (trace s).

Definition set_endpoint_queues (v : gmap Z (list bytes)) (s : state) : state :=
  State (running s) (endpoint_threads s) v (device_descriptor s)
        (config_descriptors s) (string_descriptors s) (host_connected s)
        (device_configured s) (endpoints_running s) (configured s) (trace s).

Definition set_host_connected (v : bool) (s : state) : state :=
  State (running s) (endpoint_threads s) (endpoint_queues s)
        (device_descriptor s) (config_descriptors s) (string_descriptors s)
        v (device_configured s) (endpoints_running s) (configured s)
        (trace s).

Definition set_device_configured (v : bool) (s : state) : state :=
  State (running s) (endpoint_threads s) (endpoint_queues s)
        (device_descriptor s) (config_descriptors s) (string_descriptors s)
        (host_connected s) v (endpoints_running s) (configured s) (trace s).

Definition set_endpoints_running (v : bool) (s : state) : state :=
  State (running s) (endpoint_threads s) (endpoint_queues s)
        (device_descriptor s) (config_descriptors s) (string_descriptors s)
        (host_connected s) (device_configured s) v (configured s)
        (trace s ++ [SetEndpointsRunning v]).

Definition set_configured (v : bool) (s : state) : state :=
  State (running s) (endpoint_threads s) (endpoint_queues s)
        (device_descriptor s) (config_descriptors s) (string_descriptors s)
        (host_connected s) (device_configured s) (endpoints_running s) v
        (trace s).

(** Record one effect. *)
Definition log_effect (e : effect) (s : state) : state :=
  State (running s) (endpoint_threads s) (endpoint_queues s)
        (device_descriptor s) (config_descriptors s) (string_descriptors s)
        (host_connected s) (device_configured s) (endpoints_running s)
        (configured s) (trace s ++ [e]).

(** The state of a new [USBProxy] whose descriptors have been cached. *)
Definition init_state (dd : option bytes) (cds sds : gmap Z bytes) : state :=
  State true [] ∅ dd cds sds false false true false [].

(** ** The monad *)

Inductive exn :=
| OSError
| USBError
| StructError
| TransferFailed (result : Z).

Inductive outcome (A : Type) :=
| Return (a : A)
| Raise (e : exn).
Arguments Return {A} a.
Arguments Raise {A} e.

Definition M (A : Type) : Type := state -> outcome A * state.

Definition ret {A} (a : A) : M A := fun s => (Return a, s).
Definition raise {A} (e : exn) : M A := fun s => (Raise e, s).
Definition bind {A B} (m : M A) (k : A -> M B) : M B :=
  fun s => match m s with
           | (Return a, s') => k a s'
           | (Raise e, s') => (Raise e, s')
           end.
Definition get : M state := fun s => (Return s, s).
Definition modify (f : state -> state) : M unit := fun s => (Return tt, f s).

(** [try: m  except Exception: h]. *)
Definition try_except {A} (m : M A) (h : exn -> M A) : M A :=
  fun s => match m s with
           | (Return a, s') => (Return a, s')
           | (Raise e, s') => h e s'
           end.

Declare Scope proxy_scope.
Delimit Scope proxy_scope with proxy.
Notation "x <- m ;; k" := (bind m (fun x => k))
  (at level 100, m at next level, right associativity) : proxy_scope.
Notation "m ;; k" := (bind m (fun _ => k))
  (at level 100, right associativity) : proxy_scope.
Local Open Scope proxy_scope.

(** The state a computation ends in, raised or not. *)
Definition exec {A} (m : M A) (s : state) : state := (m s).2.

(** [for x in l: body(x)]. *)
Fixpoint for_each {A} (l : list A) (body : A -> M unit) : M unit :=
  match l with
  | [] => ret tt
  | x :: rest => body x ;; for_each rest body
  end.

(** [struct.pack("<I", z)]. *)
Definition pack_u32 (z : Z) : bytes :=
  [byte_of_Z z; byte_of_Z (z / 256); byte_of_Z (z / 65536);
   byte_of_Z (z / 16777216)].

(** [struct usb_raw_ep_io]: [bytearray(8 + length)] with the header
    [pack_into("<HHI", buffer, 0, ep, 0, length)]. *)
Definition ep_io_buffer (ep len : Z) : bytes :=
  pack_u16 ep ++ pack_u16 0 ++ pack_u32 len ++ replicate (Z.to_nat len) x00.

Definition is_standard (p : setup) : bool :=
  Z.land (bmRequestType p) USB_TYPE_MASK =? USB_TYPE_STANDARD.

Definition is_dir_in (p : setup) : bool :=
  negb (Z.land (bmRequestType p) USB_DIR_IN =? 0).

(** [desc_type = (wValue >> 8) & 0xFF] and [desc_index = wValue & 0xFF]. *)
Definition desc_type (p : setup) : Z := Z.land (Z.shiftr (wValue p) 8) 255.
Definition desc_index (p : setup) : Z := Z.land (wValue p) 255.

(** The truth value of [self.device_descriptor]: [None] and the empty
    array are false. *)
Definition truthy (d : option bytes) : option bytes :=
  match d with
  | Some (b :: rest) => Some (b :: rest)
  | _ => None
  end.

(** The adjustment of [bMaxPacketSize0] in the device descriptor branch of
    [handle_control_request]. *)
Definition adjust_bMaxPacketSize0 (data : bytes) : bytes :=
  if (8 <=? length data)%nat then
    match data !! 7%nat with
    | Some b => if u8 b <? 64 then <[7%nat := x40]> data else data
    | None => data
    end
  else data.

Section USBProxy.

Variable env : Env.

(** *** Gadget I/O *)

Definition ep0_read (len : Z) : M bytes := fun s =>
  let buffer := ep_io_buffer 0 len in
  (Return match ioctl_ep0_read env (trace s) len with
          | Some kernel =>
              slice 8 (8 + Z.to_nat len) (ioctl_into buffer kernel)
          | None => []
          end,
   log_effect (GadgetEp0Read len) s).

Definition ep0_write (data : bytes) : M Z := fun s =>
  (Return match ioctl_ep0_write env (trace s) data with
          | Some r => r
          | None => -1
          end,
   log_effect (GadgetEp0Write data) s).

Definition ep0_stall : M unit := fun s =>
  (if ioctl_ep0_stall env (trace s) then Return tt else Raise OSError,
   log_effect GadgetEp0Stall s).

Definition ep_enable (descriptor : bytes) : M Z := fun s =>
  (Return match ioctl_ep_enable env (trace s) descriptor with
          | Some ep_num => ep_num
          | None => -1
          end,
   log_effect (GadgetEpEnable descriptor) s).

Definition configure_gadget : M unit := fun s =>
  (if ioctl_configure env (trace s) then Return tt else Raise OSError,
   log_effect GadgetConfigure s).

(** *** Upstream device *)

Definition usb_set_configuration (value : Z) : M unit := fun s =>
  (if dev_set_configuration env (trace s) value
   then Return tt else Raise USBError,
   log_effect (UpSetConfiguration value) s).

Definition usb_ctrl_transfer_in (p : setup) : M bytes := fun s =>
  (match dev_ctrl_transfer_in env (trace s) p with
   | Some data => Return data
   | None => Raise USBError
   end,
   log_effect (UpCtrlTransferIn p) s).

Definition usb_ctrl_transfer_out (p : setup) (data : option bytes) : M Z :=
  fun s =>
  (match dev_ctrl_transfer_out env (trace s) p data with
   | Some result => Return result
   | None => Raise USBError
   end,
   log_effect (UpCtrlTransferOut p data) s).

Definition usb_reset : M unit := fun s =>
  (if dev_reset env (trace s) then Return tt else Raise USBError,
   log_effect UpReset s).

(** *** Threads *)

Definition thread_start (w : worker) : M unit :=
  modify (log_effect (ThreadStart w)).

Definition thread_join (w : worker) : M unit :=
  modify (log_effect (ThreadJoin w)).

Definition is_alive (w : worker) : M bool := fun s =>
  (Return (thread_is_alive env (trace s) w), s).

(** *** [handle_control_request] *)

(** "For all other requests, query device directly". *)
Definition forward_in (p : setup) : M unit :=
  data <- usb_ctrl_transfer_in p ;;
  ep0_write data ;;
  ret tt.

Definition handle_control_request (ctrl_data : bytes) : M unit :=
  match unpack_setup ctrl_data with
  | None => raise StructError
  | Some p =>
    try_except
      (if is_standard p && (bRequest p =? USB_REQ_GET_STATUS) && is_dir_in p
       then ep0_write [x00; x00] ;; ret tt
       else if is_dir_in p then
         if is_standard p && (bRequest p =? USB_REQ_GET_DESCRIPTOR) then
           s <- get ;;
           match (if desc_type p =? USB_DT_DEVICE
                  then truthy (device_descriptor s) else None) with
           | Some dd =>
               let data := upto (wLength p) dd in
               let data := adjust_bMaxPacketSize0 data in
               ep0_write data ;; ret tt
           | None =>
           match (if desc_type p =? USB_DT_CONFIG
                  then config_descriptors s !! desc_index p else None) with
           | Some cached_cfg =>
               ep0_write (upto (wLength p) cached_cfg) ;; ret tt
           | None =>
           match (if desc_type p =? USB_DT_STRING
                  then string_descriptors s !! desc_index p else None) with
           | Some cached_str =>
               ep0_write (upto (wLength p) cached_str) ;; ret tt
           | None => forward_in p
           end end end
         else forward_in p
       else
         if 0 <? wLength p then
           data <- ep0_read (wLength p) ;;
           result <- usb_ctrl_transfer_out p (Some data) ;;
           if result <? 0 then raise (TransferFailed result) else ret tt
         else
           try_except
             (result <- usb_ctrl_transfer_out p None ;;
              if result =? 0 then ep0_read 0 ;; ret tt
              else ep0_stall)
             (fun _ => ep0_stall))
      (fun _ => ep0_stall)
  end.

(** *** [setup_endpoints] and [cleanup_endpoints] *)

(** "Find the configuration with this value": the first index [idx] with
    [cfg.bConfigurationValue == config_value], and [self.usb_device[idx]]. *)
Definition find_config (cfgs : list configuration) (config_value : Z)
    : option (nat * configuration) :=
  list_find (fun cfg => bConfigurationValue cfg = config_value) cfgs.

(** [struct.pack("<BBBBHB", 7, 0x05, ep_addr, bmAttributes,
    wMaxPacketSize, bInterval)]. *)
Definition endpoint_descriptor (ep : endpoint) : bytes :=
  [x07; x05; byte_of_Z (bEndpointAddress ep); byte_of_Z (bmAttributes ep)]
  ++ pack_u16 (wMaxPacketSize ep) ++ [byte_of_Z (bInterval ep)].

(** The reader and the writer thread of an endpoint enabled as [ep_num]:
    by direction, [ep_addr & 0x80]. *)
Definition endpoint_workers (ep : endpoint) (ep_num : Z) : worker * worker :=
  let ep_addr := bEndpointAddress ep in
  let ep_type := Z.land (bmAttributes ep) 3 in
  let is_in := negb (Z.land ep_addr 128 =? 0) in
  if is_in then (InReader ep_addr ep_type, InWriter ep_num)
  else (OutReader ep_num ep_type, OutWriter ep_addr).

(** The body of the inner loop of [setup_endpoints]. *)
Definition setup_endpoint (ep : endpoint) : M unit :=
  ep_num <- ep_enable (endpoint_descriptor ep) ;;
  modify (fun s => set_endpoint_queues
                     (<[bEndpointAddress ep := []]> (endpoint_queues s)) s) ;;
  let reader := (endpoint_workers ep ep_num).1 in
  let writer := (endpoint_workers ep ep_num).2 in
  thread_start reader ;;
  thread_start writer ;;
  modify (fun s => set_endpoint_threads
                     (endpoint_threads s ++ [reader; writer]) s).

Definition setup_endpoints (config_value : Z) : M unit :=
  match find_config (dev_configurations env) config_value with
  | None => ret tt
  | Some (config_index, cfg) =>
      for_each (cfg_interfaces cfg) (fun intf =>
        for_each (intf_endpoints intf) setup_endpoint)
  end.

(** The body of the loop of [cleanup_endpoints]: a live thread is joined
    for at most two seconds; whether it is still alive then only changes
    what is logged. *)
Definition join_thread (thread : worker) : M unit :=
  alive <- is_alive thread ;;
  if alive then
    thread_join thread ;;
    still_alive <- is_alive thread ;;
    ret tt
  else ret tt.

Definition cleanup_endpoints : M unit :=
  s <- get ;;
  match endpoint_threads s with
  | [] => ret tt
  | _ :: _ =>
      modify (set_endpoints_running false) ;;
      for_each (endpoint_threads s) join_thread ;;
      modify (set_endpoint_threads []) ;;
      modify (set_endpoint_queues ∅) ;;
      modify (set_endpoints_running true)
  end.

(** *** [ep0_loop] *)

(** "Clean up endpoints if configured". *)
Definition cleanup_if_configured : M unit :=
  s <- get ;;
  if configured s || device_configured s then
    cleanup_endpoints ;;
    modify (set_configured false) ;;
    modify (set_device_configured false)
  else ret tt.

(** The handling of a CONTROL event whose data has at least 8 bytes. *)
Definition handle_control_event (event_data : bytes) : M unit :=
  match unpack_setup event_data with
  | None => raise StructError
  | Some p =>
      s <- get ;;
      if is_standard p && (bRequest p =? USB_REQ_SET_ADDRESS) then
        ep0_read 0 ;; ret tt
      else if is_standard p && (bRequest p =? USB_REQ_GET_STATUS)
              && is_dir_in p then
        ep0_write [x00; x00] ;; ret tt
      else if is_standard p && (bRequest p =? USB_REQ_GET_CONFIGURATION)
              && is_dir_in p then
        ep0_write [if configured s then x01 else x00] ;; ret tt
      else if is_standard p && (bRequest p =? USB_REQ_SET_CONFIGURATION)
              && negb (configured s) then
        usb_set_configuration (wValue p) ;;
        configure_gadget ;;
        setup_endpoints (wValue p) ;;
        modify (set_configured true) ;;
        modify (set_device_configured true) ;;
        ep0_read 0 ;;
        ret tt
      else handle_control_request event_data
  end.

(** One turn of the [while self.running] loop, on what the EVENT_FETCH
    ioctl did.  An exception is logged and the loop goes on. *)
Definition ep0_loop_body (raw : option bytes) : M unit :=
  try_except
    (let '(event_type, event_data) := fetch_event raw in
     if event_type =? 0 then ret tt
     else if (event_type =? USB_RAW_EVENT_RESET)
             || (event_type =? USB_RAW_EVENT_DISCONNECT) then
       (if event_type =? USB_RAW_EVENT_RESET then ret tt
        else modify (set_host_connected false)) ;;
       cleanup_if_configured ;;
       try_except usb_reset (fun _ => ret tt)
     else if negb (event_type =? USB_RAW_EVENT_CONTROL) then
       if event_type =? USB_RAW_EVENT_CONNECT then
         modify (set_host_connected true) ;;
         cleanup_if_configured
       else ret tt
     else
       if (length event_data <? 8)%nat then ep0_stall
       else handle_control_event event_data)
    (fun _ => ret tt).

(** The loop, over the events fetched one after the other.  A
    [KeyboardInterrupt], which ends the loop, is not among them. *)
Fixpoint ep0_events (events : list (option bytes)) : M unit :=
  match events with
  | [] => ret tt
  | raw :: rest =>
      s <- get ;;
      if running s then ep0_loop_body raw ;; ep0_events rest
      else ret tt
  end.

Definition ep0_loop (events : list (option bytes)) : M unit :=
  modify (set_configured false) ;;
  ep0_events events.

End USBProxy.

(** ** Concrete devices, environments and requests *)

(** A printer: configuration 1 with a bulk IN endpoint 0x81 and a bulk OUT
    endpoint 0x02. *)
Definition printer_cfg : configuration :=
  Configuration 1 [Interface 0 0 [Endpoint 129 2 512 0; Endpoint 2 2 512 0]].

(** The device descriptor of scenario 1: [12 01 00 02 FF 00 00 08 ...]. *)
Definition printer_device_descriptor : bytes :=
  [x12; x01; x00; x02; xff; x00; x00; x08; xb8; x04;
   x02; x02; x00; x01; x01; x02; x03; x01].

(** Every call succeeds; a forwarder thread stays alive through a join. *)
Definition printer_env : Env := {|
  dev_configurations := [printer_cfg];
  dev_set_configuration := fun _ _ => true;
  dev_ctrl_transfer_in := fun _ _ => Some printer_device_descriptor;
  dev_ctrl_transfer_out := fun _ _ _ => Some 0;
  dev_reset := fun _ => true;
  ioctl_configure := fun _ => true;
  ioctl_ep_enable := fun t _ => Some (Z.of_nat (length t));
  ioctl_ep0_read := fun _ _ => Some [];
  ioctl_ep0_write := fun _ _ => Some 0;
  ioctl_ep0_stall := fun _ => true;
  thread_is_alive := fun _ _ => true
|}.

(** The same, with an upstream device that fails every call. *)
Definition failing_env : Env := {|
  dev_configurations := [printer_cfg];
  dev_set_configuration := fun _ _ => false;
  dev_ctrl_transfer_in := fun _ _ => None;
  dev_ctrl_transfer_out := fun _ _ _ => None;
  dev_reset := fun _ => false;
  ioctl_configure := fun _ => true;
  ioctl_ep_enable := fun t _ => Some (Z.of_nat (length t));
  ioctl_ep0_read := fun _ _ => Some [];
  ioctl_ep0_write := fun _ _ => Some 0;
  ioctl_ep0_stall := fun _ => true;
  thread_is_alive := fun _ _ => true
|}.

(** The same, with a gadget that refuses CONFIGURE. *)
Definition unconfigurable_env : Env := {|
  dev_configurations := [printer_cfg];
  dev_set_configuration := fun _ _ => true;
  dev_ctrl_transfer_in := fun _ _ => Some printer_device_descriptor;
  dev_ctrl_transfer_out := fun _ _ _ => Some 0;
  dev_reset := fun _ => true;
  ioctl_configure := fun _ => false;
  ioctl_ep_enable := fun t _ => Some (Z.of_nat (length t));
  ioctl_ep0_read := fun _ _ => Some [];
  ioctl_ep0_write := fun _ _ => Some 0;
  ioctl_ep0_stall := fun _ => true;
  thread_is_alive := fun _ _ => true
|}.

Definition printer_state : state :=
  init_state (Some printer_device_descriptor)
             {[ 0 := [x09; x02; x20; x00; x01; x01; x00; x80; x32] ]}
             {[ 1 := [x04; x03; x09; x04] ]}.

(** No device descriptor in the cache: the upstream answered the cache's
    request with no data. *)
Definition uncached_state : state := init_state (Some []) ∅ ∅.


(** What EVENT_FETCH writes for a CONTROL event with this setup packet. *)
Definition control_event (setup_packet : bytes) : option bytes :=
  Some ([x02; x00; x00; x00; x08; x00; x00; x00] ++ setup_packet).

(** ... and for an event without data. *)
Definition plain_event (event_type : byte) : option bytes :=
  Some [event_type; x00; x00; x00; x00; x00; x00; x00].

Definition GET_DESCRIPTOR_device_18 : bytes :=
  [x80; x06; x00; x01; x00; x00; x12; x00].
Definition GET_DESCRIPTOR_device_7 : bytes :=
  [x80; x06; x00; x01; x00; x00; x07; x00].
Definition SET_CONFIGURATION_1 : bytes :=
  [x00; x09; x01; x00; x00; x00; x00; x00].
Definition SET_CONFIGURATION_0 : bytes :=
  [x00; x09; x00; x00; x00; x00; x00; x00].
Definition SET_ADDRESS_5 : bytes :=
  [x00; x05; x05; x00; x00; x00; x00; x00].
(** A vendor OUT request with two bytes of data, and one with none. *)
Definition vendor_out_2 : bytes :=
  [x40; x01; x00; x00; x00; x00; x02; x00].
Definition vendor_out_0 : bytes :=
  [x40; x01; x00; x00; x00; x00; x00; x00].

(** ** Notions used in the statements *)

(** A standard GET_DESCRIPTOR request, direction IN. *)
Definition is_get_descriptor (p : setup) : bool :=
  is_standard p && (bRequest p =? USB_REQ_GET_DESCRIPTOR) && is_dir_in p.

(** The cached blob that the [if]/[elif] chain of [handle_control_request]
    selects for a GET_DESCRIPTOR request, if any. *)
Definition cache_entry (s : state) (p : setup) : option bytes :=
  if desc_type p =? USB_DT_DEVICE then truthy (device_descriptor s)
  else if desc_type p =? USB_DT_CONFIG
       then config_descriptors s !! desc_index p
  else if desc_type p =? USB_DT_STRING
       then string_descriptors s !! desc_index p
  else None.



(** Record several effects. *)
Definition log_effects (t : list effect) (s : state) : state :=
  State (running s) (endpoint_threads s) (endpoint_queues s)
        (device_descriptor s) (config_descriptors s) (string_descriptors s)
        (host_connected s) (device_configured s) (endpoints_running s)
        (configured s) (trace s ++ t).

(** A computation that does nothing to the state but record effects, all
    of them in [P]. *)
Definition only_logs {A} (P : effect -> Prop) (m : M A) : Prop :=
  forall s, exists o t, m s = (o, log_effects t s) /\ Forall P t.

(** The endpoints that [setup_endpoints] iterates for a configuration
    value: those of every interface of the first configuration with that
    value; none when there is no such configuration. *)
Definition config_endpoints (env : Env) (config_value : Z) : list endpoint :=
  match find_config (dev_configurations env) config_value with
  | None => []
  | Some (_, cfg) => concat (map intf_endpoints (cfg_interfaces cfg))
  end.

(** The effects of setting up one endpoint that the gadget enabled as
    [ep_num], and of setting up several. *)
Definition endpoint_effects (ep : endpoint) (ep_num : Z) : list effect :=
  [GadgetEpEnable (endpoint_descriptor ep);
   ThreadStart (endpoint_workers ep ep_num).1;
   ThreadStart (endpoint_workers ep ep_num).2].

Definition setup_effects (eps : list endpoint) (ep_nums : list Z)
    : list effect :=
  concat (zip_with endpoint_effects eps ep_nums).

Definition spawned_workers (eps : list endpoint) (ep_nums : list Z)
    : list worker :=
  concat (zip_with (fun ep ep_num => [(endpoint_workers ep ep_num).1;
                                      (endpoint_workers ep ep_num).2])
                   eps ep_nums).

(** An ACK, a data stage or a stall on EP0. *)
Definition is_ep0_effect (e : effect) : bool :=
  match e with
  | GadgetEp0Read _ | GadgetEp0Write _ | GadgetEp0Stall => true
  | _ => false
  end.

(** An upstream control transfer that carries a standard SET_ADDRESS. *)
Definition is_upstream_set_address (e : effect) : bool :=
  match e with
  | UpCtrlTransferIn p | UpCtrlTransferOut p _ =>
      is_standard p && (bRequest p =? USB_REQ_SET_ADDRESS)
  | _ => false
  end.

(** The effects of [cleanup_endpoints] that joined the threads [joined]. *)
Definition teardown_effects (threads joined : list worker) : list effect :=
  match threads with
  | [] => []
  | _ :: _ =>
      SetEndpointsRunning false :: map ThreadJoin joined
      ++ [SetEndpointsRunning true]
  end.

(** The invariant of [ep0_loop]: the local [configured] and the field
    [device_configured] agree, and threads and queues exist only while
    configured. *)
Definition loop_invariant (s : state) : Prop :=
  configured s = device_configured s /\
  (device_configured s = false -> endpoint_threads s = []) /\
  (endpoint_threads s = [] -> endpoint_queues s = ∅).

(** An effect that [handle_control_request] may have on behalf of the
    request [p]: any upstream control transfer it makes carries [p]. *)
Definition on_behalf_of (p : setup) (e : effect) : Prop :=
  match e with
  | UpCtrlTransferIn q | UpCtrlTransferOut q _ => q = p
  | _ => True
  end.

(** What one turn of the loop keeps: the invariant, and a trace that
    grows by effects other than an upstream SET_ADDRESS. *)
Definition step_ok (s s' : state) : Prop :=
  loop_invariant s' /\
  exists t, trace s' = trace s ++ t /\
            Forall (fun e => is_upstream_set_address e = false) t.

(** * Further code of the proxy *)

(** ** ioctl numbers *)

(** [_IOC]: [ioctl_type] is the one-character string, [u8] its [ord]. *)
Definition _IOC (direction : Z) (ioctl_type : byte) (nr size : Z) : Z :=
  Z.lor (Z.lor (Z.lor (Z.shiftl direction 30)
                      (Z.shiftl (u8 ioctl_type) 8))
               (Z.shiftl nr 0))
        (Z.shiftl size 16).

Definition _IO (ioctl_type : byte) (nr : Z) : Z := _IOC 0 ioctl_type nr 0.
Definition _IOW (ioctl_type : byte) (nr size : Z) : Z :=
  _IOC 1 ioctl_type nr size.
Definition _IOR (ioctl_type : byte) (nr size : Z) : Z :=
  _IOC 2 ioctl_type nr size.
Definition _IOWR (ioctl_type : byte) (nr size : Z) : Z :=
  _IOC 3 ioctl_type nr size.

Definition UDC_NAME_LENGTH_MAX : Z := 128.
Definition USB_RAW_INIT_SIZE : Z :=
  UDC_NAME_LENGTH_MAX + UDC_NAME_LENGTH_MAX + 1.
(** ['U'] is the byte 0x55. *)
Definition USB_RAW_IOCTL_INIT : Z := _IOW x55 0 USB_RAW_INIT_SIZE.
Definition USB_RAW_IOCTL_RUN : Z := _IO x55 1.
Definition USB_RAW_IOCTL_EVENT_FETCH : Z := _IOR x55 2 8.
Definition USB_RAW_IOCTL_EP0_WRITE : Z := _IOW x55 3 8.
Definition USB_RAW_IOCTL_EP0_READ : Z := _IOWR x55 4 8.
Definition USB_RAW_IOCTL_EP_ENABLE : Z := _IOW x55 5 9.
Definition USB_RAW_IOCTL_EP_DISABLE : Z := _IOW x55 6 4.
Definition USB_RAW_IOCTL_EP_WRITE : Z := _IOW x55 7 8.
Definition USB_RAW_IOCTL_EP_READ : Z := _IOWR x55 8 8.
Definition USB_RAW_IOCTL_CONFIGURE : Z := _IO x55 9.
Definition USB_RAW_IOCTL_VBUS_DRAW : Z := _IOW x55 10 4.
Definition USB_RAW_IOCTL_EPS_INFO : Z := _IOR x55 11 1920.
Definition USB_RAW_IOCTL_EP0_STALL : Z := _IO x55 12.
Definition USB_RAW_IOCTL_EP_SET_HALT : Z := _IOW x55 13 4.

(** The fields of an ioctl number, as the kernel reads them. *)
Definition ioc_nr (ioc : Z) : Z := Z.land ioc 255.
Definition ioc_type (ioc : Z) : Z := Z.land (Z.shiftr ioc 8) 255.
Definition ioc_size (ioc : Z) : Z := Z.land (Z.shiftr ioc 16) 16383.
Definition ioc_dir (ioc : Z) : Z := Z.shiftr ioc 30.

(** ** [init_gadget] *)

Definition USB_SPEED_HIGH : Z := 3.

(** [name.encode('utf-8')[:127].ljust(128, b'\x00')], on the encoded
    name. *)
Definition padded_name (encoded : bytes) : bytes :=
  let cut := take 127 encoded in
  cut ++ replicate (128 - length cut) x00.

(** [init_struct], on the encoded driver and device names. *)
Definition init_struct (driver_name device_name : bytes) : bytes :=
  padded_name driver_name ++ padded_name device_name
  ++ [byte_of_Z USB_SPEED_HIGH].

(** ** [ep_write] and [ep_read] *)

(** The [H] and [I] fields of [struct.pack_into]: [None] is
    [struct.error], for a number out of range. *)
Definition pack_H (z : Z) : option bytes :=
  if (0 <=? z) && (z <? 65536) then Some (pack_u16 z) else None.
Definition pack_I (z : Z) : option bytes :=
  if (0 <=? z) && (z <? 4294967296) then Some (pack_u32 z) else None.

(** The buffer of [ep_write]: [bytearray(8 + len(data))], the header
    [pack_into("<HHI", buffer, 0, ep_num, 0, len(data))], then
    [buffer[8:] = data]. *)
Definition ep_io_packet (ep_num : Z) (data : bytes) : option bytes :=
  match pack_H ep_num, pack_H 0, pack_I (Z.of_nat (length data)) with
  | Some ep, Some flags, Some len => Some (ep ++ flags ++ len ++ data)
  | _, _, _ => None
  end.

(** [ep_write]: [ioctl] is what the EP_WRITE ioctl answers on a buffer,
    [None] when it raises [OSError]. *)
Definition ep_write (ioctl : bytes -> option Z) (ep_num : Z) (data : bytes)
    : outcome Z :=
  match ep_io_packet ep_num data with
  | None => Raise StructError
  | Some buffer =>
      Return match ioctl buffer with
             | Some r => r
             | None => -1
             end
  end.

(** [ep_read], for a length that is a natural number (the callers pass
    4096 and 64): [ioctl] answers with its return value and with what
    the kernel wrote into the buffer, [None] when it raises [OSError]. *)
Definition ep_read (ioctl : bytes -> option (Z * bytes)) (ep_num : Z)
    (len : nat) : outcome bytes :=
  match pack_H ep_num, pack_H 0, pack_I (Z.of_nat len) with
  | Some ep, Some flags, Some l =>
      let buffer := ep ++ flags ++ l ++ replicate len x00 in
      match ioctl buffer with
      | None => Return []
      | Some (result, kernel) =>
          let buffer := ioctl_into buffer kernel in
          if 0 <? result then
            Return (slice 8 (8 + Z.to_nat result) buffer)
          else
            let actual_len := le_uint (slice 4 8 buffer) in
            Return (slice 8 (8 + Z.to_nat actual_len) buffer)
      end
  | _, _, _ => Raise StructError
  end.

(** What EVENT_FETCH writes for an event: [struct usb_raw_event], the
    type, the length of the data, the data. *)
Definition raw_event (event_type : Z) (data : bytes) : bytes :=
  pack_u32 event_type ++ pack_u32 (Z.of_nat (length data)) ++ data.

(** ** More environments *)

(** A gadget that refuses EP_ENABLE and whose stall ioctl fails; the
    upstream device answers every transfer with the device descriptor
    and every OUT transfer with 0. *)
Definition no_endpoint_env : Env := {|
  dev_configurations := [printer_cfg];
  dev_set_configuration := fun _ _ => true;
  dev_ctrl_transfer_in := fun _ _ => Some printer_device_descriptor;
  dev_ctrl_transfer_out := fun _ _ _ => Some 0;
  dev_reset := fun _ => true;
  ioctl_configure := fun _ => true;
  ioctl_ep_enable := fun _ _ => None;
  ioctl_ep0_read := fun _ _ => None;
  ioctl_ep0_write := fun _ _ => None;
  ioctl_ep0_stall := fun _ => false;
  thread_is_alive := fun _ _ => false
|}.

(** ** Notions used in the further statements *)

(** The cached descriptors and the flag [running] are the same in both
    states. *)
Definition same_cache (s s' : state) : Prop :=
  device_descriptor s' = device_descriptor s /\
  config_descriptors s' = config_descriptors s /\
  string_descriptors s' = string_descriptors s /\
  running s' = running s.

(** A computation that leaves them alone, from every state. *)
Definition keeps_cache {A} (m : M A) : Prop :=
  forall s, same_cache s (m s).2.

(** An effect of [handle_control_request] for the request [p]: EP0, or
    an upstream control transfer that carries [p]. *)
Definition control_effect (p : setup) (e : effect) : Prop :=
  match e with
  | UpCtrlTransferIn q | UpCtrlTransferOut q _ => q = p
  | GadgetEp0Read _ | GadgetEp0Write _ | GadgetEp0Stall => True
  | _ => False
  end.

(** ** [cache_descriptors] *)

(** The attributes of the device object that [cache_descriptors] reads. *)
Record device_attributes := DeviceAttributes {
  bNumConfigurations : Z;
  iManufacturer : Z;
  iProduct : Z;
  iSerialNumber : Z
}.

Definition set_device_descriptor (v : option bytes) (s : state) : state :=
  State (running s) (endpoint_threads s) (endpoint_queues s) v
        (config_descriptors s) (string_descriptors s) (host_connected s)
        (device_configured s) (endpoints_running s) (configured s) (trace s).

Definition set_config_descriptors (v : gmap Z bytes) (s : state) : state :=
  State (running s) (endpoint_threads s) (endpoint_queues s)
        (device_descriptor s) v (string_descriptors s) (host_connected s)
        (device_configured s) (endpoints_running s) (configured s) (trace s).

Definition set_string_descriptors (v : gmap Z bytes) (s : state) : state :=
  State (running s) (endpoint_threads s) (endpoint_queues s)
        (device_descriptor s) (config_descriptors s) v (host_connected s)
        (device_configured s) (endpoints_running s) (configured s) (trace s).

Section DescriptorCache.

Variable env : Env.

(** [dev.ctrl_transfer(0x80, 0x06, wValue, wIndex, wLength,
    timeout=1000)]. *)
Definition get_descriptor (value index len : Z) : M bytes :=
  usb_ctrl_transfer_in env (Setup 128 6 value index len).

(** One turn of "for cfg_idx in range(dev.bNumConfigurations)". *)
Definition cache_config (cfg_idx : Z) : M unit :=
  cfg_header <- get_descriptor (Z.lor 512 cfg_idx) 0 9 ;;
  if (9 <=? length cfg_header)%nat then
    let total_length := le_uint (slice 2 4 cfg_header) in
    full_cfg <- get_descriptor (Z.lor 512 cfg_idx) 0 total_length ;;
    modify (fun s => set_config_descriptors
                       (<[cfg_idx := full_cfg]> (config_descriptors s)) s)
  else ret tt.

(** "if hasattr(dev, 'iManufacturer') and dev.iManufacturer: try: ...
    except: pass", for any of the three string indices. *)
Definition cache_string (index : Z) : M unit :=
  if index =? 0 then ret tt
  else
    try_except
      (str_desc <- get_descriptor (Z.lor 768 index) 1033 255 ;;
       modify (fun s => set_string_descriptors
                          (<[index := str_desc]> (string_descriptors s)) s))
      (fun _ => ret tt).

Definition cache_descriptors (dev : device_attributes) : M unit :=
  try_except
    (dd <- get_descriptor 256 0 18 ;;
     modify (set_device_descriptor (Some dd)) ;;
     for_each (seqZ 0 (bNumConfigurations dev)) cache_config ;;
     cache_string (iManufacturer dev) ;;
     cache_string (iProduct dev) ;;
     cache_string (iSerialNumber dev))
    (fun e => raise e).

End DescriptorCache.

(** An upstream transfer that reads a descriptor: standard
    GET_DESCRIPTOR, direction IN. *)
Definition is_descriptor_read (e : effect) : bool :=
  match e with
  | UpCtrlTransferIn p => is_get_descriptor p
  | _ => false
  end.

(** What a step of [cache_descriptors] may do to the state: add
    descriptor reads to the trace, set [device_descriptor], add
    configuration descriptors under indices below [bNumConfigurations]
    and string descriptors under the three string indices of the
    device, those that are not 0. *)
Definition cache_step (dev : device_attributes) (s s' : state) : Prop :=
  (exists t, trace s' = trace s ++ t /\
             Forall (fun e => is_descriptor_read e = true) t) /\
  (running s' = running s /\
   endpoint_threads s' = endpoint_threads s /\
   endpoint_queues s' = endpoint_queues s /\
   host_connected s' = host_connected s /\
   device_configured s' = device_configured s /\
   endpoints_running s' = endpoints_running s /\
   configured s' = configured s) /\
  (forall i, config_descriptors s' !! i = config_descriptors s !! i \/
             0 <= i < bNumConfigurations dev) /\
  (forall i, string_descriptors s' !! i = string_descriptors s !! i \/
             (i <> 0 /\
              (i = iManufacturer dev \/ i = iProduct dev
               \/ i = iSerialNumber dev))).

(** A device with one configuration and three strings. *)
Definition printer_attributes : device_attributes :=
  DeviceAttributes 1 1 2 3.

(** An upstream device that answers the requests with [wIndex = 0], the
    device and configuration descriptors, and fails every other one. *)
Definition stringless_env : Env := {|
  dev_configurations := [printer_cfg];
  dev_set_configuration := fun _ _ => true;
  dev_ctrl_transfer_in := fun _ p =>
    if wIndex p =? 0 then
      Some (if desc_type p =? USB_DT_DEVICE then printer_device_descriptor
            else [x09; x02; x09; x00; x01; x01; x00; x80; x32])
    else None;
  dev_ctrl_transfer_out := fun _ _ _ => Some 0;
  dev_reset := fun _ => true;
  ioctl_configure := fun _ => true;
  ioctl_ep_enable := fun t _ => Some (Z.of_nat (length t));
  ioctl_ep0_read := fun _ _ => Some [];
  ioctl_ep0_write := fun _ _ => Some 0;
  ioctl_ep0_stall := fun _ => true;
  thread_is_alive := fun _ _ => true
|}.

(** A computation whose steps are all steps of [cache_descriptors]. *)
Definition caches {A} (dev : device_attributes) (m : M A) : Prop :=
  forall s, cache_step dev s (m s).2.

(** A computation that returns normally and leaves [device_descriptor]
    alone, from every state. *)
Definition returns_keeping_device_descriptor (m : M unit) : Prop :=
  forall s, (m s).1 = Return tt /\
            device_descriptor (m s).2 = device_descriptor s.

(** ** [ensure_clean_connection] *)

(** The events are those that [fetch_event] gets, one after the other;
    [None] means that the function is still waiting when the given
    events end.  The loops are "while self.running" loops: with the flag
    off they are skipped. *)

Definition is_disconnect (raw : option bytes) : bool :=
  let event_type := (fetch_event raw).1 in
  (event_type =? USB_RAW_EVENT_DISCONNECT)
  || (event_type =? USB_RAW_EVENT_RESET).

Definition is_connect (raw : option bytes) : bool :=
  let event_type := (fetch_event raw).1 in
  (event_type =? USB_RAW_EVENT_CONNECT)
  || (event_type =? USB_RAW_EVENT_CONTROL).

(** "Wait for DISCONNECT or RESET event": both loops of the first phase.
    The rest of the events is returned. *)
Fixpoint wait_for_disconnect (events : list (option bytes))
    : option (list (option bytes)) :=
  match events with
  | [] => None
  | raw :: rest =>
      if is_disconnect raw then Some rest else wait_for_disconnect rest
  end.

(** "Now wait for a fresh CONNECT event": a CONTROL event ends the wait
    too. *)
Fixpoint wait_for_connect (events : list (option bytes))
    : option (list (option bytes)) :=
  match events with
  | [] => None
  | raw :: rest =>
      if is_connect raw then Some rest else wait_for_connect rest
  end.

Definition ensure_clean_connection (events : list (option bytes)) (s : state)
    : option (list (option bytes) * state) :=
  match events with
  | [] => None
  | raw :: rest =>
      let event_type := (fetch_event raw).1 in
      if running s then
        match
          (if event_type =? USB_RAW_EVENT_CONNECT
           then wait_for_disconnect rest
           else if event_type =? USB_RAW_EVENT_DISCONNECT then Some rest
           else if event_type =? USB_RAW_EVENT_RESET then Some rest
           else if event_type =? USB_RAW_EVENT_CONTROL
                then wait_for_disconnect rest
           else Some rest)
        with
        | None => None
        | Some rest1 =>
            match wait_for_connect rest1 with
            | None => None
            | Some rest2 => Some (rest2, set_host_connected true s)
            end
        end
      else Some (rest, s)
  end.

(** ** The forwarder threads *)

Definition USB_ENDPOINT_XFER_BULK : Z := 2.
Definition USB_ENDPOINT_XFER_INT : Z := 3.

(** What [usb_device.read] does: data, [USBTimeoutError], or another
    exception. *)
Inductive read_result :=
| ReadData (data : bytes)
| ReadTimeout
| ReadFailed.

(** The reader and the writer thread of one endpoint and what they
    share: the queue, the number of reads the reader has made, whether
    each thread is still in its loop, and the data that the writer has
    handed to its sink, in order. *)
Record forwarder := Forwarder {
  fw_queue : list bytes;
  fw_reads : nat;
  fw_reader_alive : bool;
  fw_writer_alive : bool;
  fw_sent : list bytes
}.

Definition new_forwarder : forwarder := Forwarder [] 0 true true [].

(** The length that a reader asks for: 4096 for a bulk endpoint, 64 for
    an interrupt endpoint; for any other type the reader only sleeps. *)
Definition read_size (ep_type : Z) : option nat :=
  if ep_type =? USB_ENDPOINT_XFER_BULK then Some 4096%nat
  else if ep_type =? USB_ENDPOINT_XFER_INT then Some 64%nat
  else None.

(** "if data: queue.put(data)". *)
Definition put_if_data (data : bytes) (queue : list bytes) : list bytes :=
  match data with
  | [] => queue
  | _ :: _ => queue ++ [data]
  end.

(** "if data:", the truth value of what a read returned. *)
Definition has_data (data : bytes) : bool :=
  match data with
  | [] => false
  | _ :: _ => true
  end.

(** One turn of the loop of [endpoint_in_reader], while the two flags
    are set: [device k] answers the read number [k].  What
    [usb_device.read] returns is an [array.array]; after [queue.put]
    the log line formats [data[:16].hex()], a method that an array does
    not have, and the [AttributeError] reaches "except Exception", which
    leaves the loop: the thread ends with its first read that has
    data. *)
Definition endpoint_in_reader (device : nat -> Z -> nat -> read_result)
    (ep_addr ep_type : Z) (f : forwarder) : forwarder :=
  if fw_reader_alive f then
    match read_size ep_type with
    | None => f
    | Some size =>
        match device (fw_reads f) ep_addr size with
        | ReadData data =>
            Forwarder (put_if_data data (fw_queue f)) (S (fw_reads f))
                      (negb (has_data data))
                      (fw_writer_alive f) (fw_sent f)
        | ReadTimeout =>
            Forwarder (fw_queue f) (S (fw_reads f)) true
                      (fw_writer_alive f) (fw_sent f)
        | ReadFailed =>
            Forwarder (fw_queue f) (S (fw_reads f)) false
                      (fw_writer_alive f) (fw_sent f)
        end
    end
  else f.

(** One turn of the loop of [endpoint_in_writer]: an empty queue is the
    [Empty] of [queue.get(timeout=0.1)]; the result of [ep_write] is not
    looked at; an exception ends the thread. *)
Definition endpoint_in_writer (ioctl : bytes -> option Z) (ep_num : Z)
    (f : forwarder) : forwarder :=
  if fw_writer_alive f then
    match fw_queue f with
    | [] => f
    | data :: queue =>
        match ep_write ioctl ep_num data with
        | Return _ =>
            Forwarder queue (fw_reads f) (fw_reader_alive f) true
                      (fw_sent f ++ [data])
        | Raise _ =>
            Forwarder queue (fw_reads f) (fw_reader_alive f) false
                      (fw_sent f)
        end
    end
  else f.

(** One turn of the loop of [endpoint_out_reader]: [gadget k] is the
    EP_READ ioctl at the read number [k].  [ep_read] returns [bytes],
    which has the method [hex]: the log line does not raise here. *)
Definition endpoint_out_reader
    (gadget : nat -> bytes -> option (Z * bytes)) (ep_num ep_type : Z)
    (f : forwarder) : forwarder :=
  if fw_reader_alive f then
    match read_size ep_type with
    | None => f
    | Some size =>
        match ep_read (gadget (fw_reads f)) ep_num size with
        | Return data =>
            Forwarder (put_if_data data (fw_queue f)) (S (fw_reads f)) true
                      (fw_writer_alive f) (fw_sent f)
        | Raise _ =>
            Forwarder (fw_queue f) (S (fw_reads f)) false
                      (fw_writer_alive f) (fw_sent f)
        end
    end
  else f.

(** One turn of the loop of [endpoint_out_writer]: [upstream k] tells
    whether [usb_device.write] number [k] succeeds; data for an IN
    address is dropped; a failed write ends the thread. *)
Definition endpoint_out_writer (upstream : nat -> Z -> bytes -> bool)
    (ep_addr : Z) (f : forwarder) : forwarder :=
  if fw_writer_alive f then
    match fw_queue f with
    | [] => f
    | data :: queue =>
        if negb (Z.land ep_addr 128 =? 0) then
          Forwarder queue (fw_reads f) (fw_reader_alive f) true (fw_sent f)
        else
          Forwarder queue (fw_reads f) (fw_reader_alive f)
                    (upstream (length (fw_sent f)) ep_addr data)
                    (fw_sent f ++ [data])
    end
  else f.

(** The two threads run in any order, one turn at a time. *)
Inductive turn := ReaderTurn | WriterTurn.

Definition run_forwarder (reader writer : forwarder -> forwarder)
    (schedule : list turn) (f : forwarder) : forwarder :=
  fold_left (fun f t => match t with
                        | ReaderTurn => reader f
                        | WriterTurn => writer f
                        end) schedule f.

(** The data of a read, if it is put on the queue. *)
Definition queued (data : bytes) : option bytes :=
  match data with
  | [] => None
  | _ :: _ => Some data
  end.

(** The chunks that the first [n] reads of the device put on the queue
    of an IN endpoint, in order. *)
Definition in_received (device : nat -> Z -> nat -> read_result)
    (ep_addr : Z) (size n : nat) : list bytes :=
  omap (fun k => match device k ep_addr size with
                 | ReadData data => queued data
                 | _ => None
                 end) (seq 0 n).

(** The same for the first [n] reads of the gadget on an OUT endpoint. *)
Definition out_received (gadget : nat -> bytes -> option (Z * bytes))
    (ep_num : Z) (size n : nat) : list bytes :=
  omap (fun k => match ep_read (gadget k) ep_num size with
                 | Return data => queued data
                 | Raise _ => None
                 end) (seq 0 n).
(** ** Lemmas on slices *)

Lemma length_ioctl_into buf kernel :
  length (ioctl_into buf kernel) = length buf.
Proof.
  unfold ioctl_into.
  rewrite length_take, length_app, length_drop. lia.
Qed.

Lemma length_slice {A} lo hi (l : list A) :
  (hi <= length l)%nat -> length (slice lo hi l) = (hi - lo)%nat.
Proof.
  intros H. unfold slice. rewrite length_take, length_drop. lia.
Qed.

Lemma length_fresh_event_buffer :
  length fresh_event_buffer = event_buffer_size.
Proof. unfold fresh_event_buffer. apply length_replicate. Qed.

Lemma guarded_length_range n :
  0 <= n -> 0 <= guarded_length n <= 4096.
Proof.
  intros H. unfold guarded_length.
  destruct (4096 <? n) eqn:E; [lia|]. apply Z.ltb_ge in E. lia.
Qed.

Lemma u8_nonneg b : 0 <= u8 b.
Proof. unfold u8. lia. Qed.

Lemma le_uint_nonneg bs : 0 <= le_uint bs.
Proof.
  induction bs as [|b bs IH]; simpl; [lia|].
  pose proof (u8_nonneg b). lia.
Qed.

(** C9. Whatever the EVENT_FETCH ioctl did: when the [length] field of the
    8-byte header is above 4096, [fetch_event] returns the empty payload;
    the payload it returns is never longer than 4096 bytes; and the slice
    that extracts it, [event_buffer[8:8+event_length]], lies inside the
    buffer of [8 + 4096] bytes, so that the payload has exactly the
    guarded length. *)
Theorem fetch_event_length_guard (kernel : bytes) :
  let event_buffer := ioctl_into fresh_event_buffer kernel in
  let payload := (fetch_event (Some kernel)).2 in
  (4096 < header_length event_buffer -> payload = []) /\
  (length payload <= 4096)%nat /\
  (8 + length payload <= length event_buffer)%nat /\
  Z.of_nat (length payload) = guarded_length (header_length event_buffer) /\
  (fetch_event None).2 = [].
Proof.
  intros event_buffer payload.
  assert (Hlen : length event_buffer = event_buffer_size).
  { unfold event_buffer.
    rewrite length_ioctl_into. apply length_fresh_event_buffer. }
  pose proof (guarded_length_range (header_length event_buffer)
                (le_uint_nonneg _)) as Hg.
  assert (Hpay : length payload
                 = Z.to_nat (guarded_length (header_length event_buffer))).
  { unfold payload, fetch_event. cbn [snd].
    fold event_buffer.
    rewrite length_slice; [lia|].
    rewrite Hlen. unfold event_buffer_size. lia. }
  repeat split.
  - intros Hbig.
    apply length_zero_iff_nil. rewrite Hpay.
    unfold guarded_length.
    apply Z.ltb_lt in Hbig. rewrite Hbig. reflexivity.
  - lia.
  - rewrite Hlen. unfold event_buffer_size. lia.
  - lia.
Qed.

Lemma fetch_event_length_guard_witness :
  4096 < header_length
           (ioctl_into fresh_event_buffer
              [x02; x00; x00; x00; x88; x13; x00; x00; x01; x02]) /\
  (fetch_event (Some [x02; x00; x00; x00; x88; x13; x00; x00; x01; x02])).2
  = [].
Proof.
  split.
  - vm_compute. reflexivity.
  - refine (proj1 (fetch_event_length_guard
                     [x02; x00; x00; x00; x88; x13; x00; x00; x01; x02]) _).
    vm_compute. reflexivity.
Defined.

(** ** Generic forwarding of OUT requests *)

Lemma trace_log_effect e s : trace (log_effect e s) = trace s ++ [e].
Proof. reflexivity. Qed.

Lemma ep0_read_state env len s :
  (ep0_read env len s).2 = log_effect (GadgetEp0Read len) s.
Proof. reflexivity. Qed.

Lemma ep0_write_state env data s :
  (ep0_write env data s).2 = log_effect (GadgetEp0Write data) s.
Proof. reflexivity. Qed.

(** C4. A generically forwarded OUT request with [wLength = 0]: the
    upstream control transfer comes first; when it returns 0 the setup is
    then ACKed with [ep0_read(0)]; when it raises or returns anything
    else, nothing but [ep0_stall()] follows (once, and again from the
    enclosing handlers when the stall ioctl itself fails), and no ACK. *)
Theorem out_zero_length_ack_after_upstream env ctrl_data p s :
  unpack_setup ctrl_data = Some p ->
  is_dir_in p = false ->
  wLength p = 0 ->
  let s' := exec (handle_control_request env ctrl_data) s in
  (dev_ctrl_transfer_out env (trace s) p None = Some 0 ->
   trace s' = trace s ++ [UpCtrlTransferOut p None; GadgetEp0Read 0]) /\
  (dev_ctrl_transfer_out env (trace s) p None <> Some 0 ->
   exists n, (1 <= n <= 3)%nat /\
     trace s' = trace s
                ++ UpCtrlTransferOut p None :: replicate n GadgetEp0Stall).
Proof.
  intros Hp Hout Hlen s'. subst s'.
  unfold exec, handle_control_request. rewrite Hp.
  unfold try_except at 1, bind, ret.
  rewrite Hout, andb_false_r, Hlen. cbn [negb Z.ltb Z.compare].
  unfold try_except, bind, ret, usb_ctrl_transfer_out.
  split.
  - intros Hup. rewrite Hup. cbn. rewrite <- app_assoc. reflexivity.
  - intros Hup.
    destruct (dev_ctrl_transfer_out env (trace s) p None) as [r|] eqn:Er.
    + destruct (r =? 0) eqn:E0.
      { apply Z.eqb_eq in E0. congruence. }
      unfold ep0_stall. cbn [fst snd trace log_effect].
      repeat match goal with
             | |- context [ioctl_ep0_stall env ?t] =>
                 destruct (ioctl_ep0_stall env t); cbn [fst snd trace log_effect]
             end;
      repeat rewrite <- app_assoc;
      [ exists 1%nat | exists 2%nat | exists 3%nat ]; (split; [lia | reflexivity]).
    + unfold ep0_stall. cbn [fst snd trace log_effect].
      repeat match goal with
             | |- context [ioctl_ep0_stall env ?t] =>
                 destruct (ioctl_ep0_stall env t); cbn [fst snd trace log_effect]
             end;
      repeat rewrite <- app_assoc;
      [ exists 1%nat | exists 2%nat ]; (split; [lia | reflexivity]).
Qed.

Lemma out_zero_length_ack_after_upstream_witness :
  trace (exec (handle_control_request printer_env vendor_out_0) printer_state)
  = [UpCtrlTransferOut (Setup 64 1 0 0 0) None; GadgetEp0Read 0]
  /\ exists n, (1 <= n <= 3)%nat /\
       trace (exec (handle_control_request failing_env vendor_out_0)
                   printer_state)
       = UpCtrlTransferOut (Setup 64 1 0 0 0) None
           :: replicate n GadgetEp0Stall.
Proof.
  split.
  - apply (out_zero_length_ack_after_upstream printer_env vendor_out_0
             (Setup 64 1 0 0 0) printer_state);
      reflexivity.
  - apply (out_zero_length_ack_after_upstream failing_env vendor_out_0
             (Setup 64 1 0 0 0) printer_state);
      [reflexivity | reflexivity | reflexivity | discriminate].
Defined.

(** C3, as the code has it. A generically forwarded OUT request with
    [wLength > 0]: [ep0_read(wLength)] comes first, then the upstream
    control transfer with the bytes that were read; when that transfer
    raises or returns a negative result, the proxy calls [ep0_stall()]
    (the exception reaches the handler of [handle_control_request]);
    otherwise nothing follows. *)
Theorem out_data_read_then_upstream_then_stall env ctrl_data p s data :
  unpack_setup ctrl_data = Some p ->
  is_dir_in p = false ->
  0 < wLength p ->
  (ep0_read env (wLength p) s).1 = Return data ->
  let s' := exec (handle_control_request env ctrl_data) s in
  let t := trace s ++ [GadgetEp0Read (wLength p)] in
  let upstream_ok :=
    match dev_ctrl_transfer_out env t p (Some data) with
    | Some result => 0 <=? result
    | None => false
    end in
  trace s' = t ++ UpCtrlTransferOut p (Some data)
               :: (if upstream_ok then [] else [GadgetEp0Stall]).
Proof.
  intros Hp Hout Hlen Hdata s' t upstream_ok.
  subst s' t upstream_ok.
  unfold exec, handle_control_request. rewrite Hp.
  unfold try_except, bind, ret.
  rewrite Hout, andb_false_r. cbn [negb].
  apply Z.ltb_lt in Hlen. rewrite Hlen.
  pose proof (ep0_read_state env (wLength p) s) as Hs1.
  destruct (ep0_read env (wLength p) s) as [o s1].
  cbn [fst snd] in Hdata, Hs1. subst o s1.
  unfold usb_ctrl_transfer_out. cbn [fst snd trace log_effect].
  destruct (dev_ctrl_transfer_out env _ p (Some data)) as [r|].
  - rewrite Z.leb_antisym.
    destruct (r <? 0); cbn [negb]; unfold raise, ep0_stall;
      cbn [fst snd trace log_effect]; rewrite <- ?app_assoc; reflexivity.
  - unfold ep0_stall. cbn [fst snd trace log_effect].
    rewrite <- ?app_assoc. reflexivity.
Qed.

Lemma out_data_read_then_upstream_then_stall_witness :
  trace (exec (handle_control_request printer_env vendor_out_2) printer_state)
  = [GadgetEp0Read 2;
     UpCtrlTransferOut (Setup 64 1 0 0 2) (Some [x00; x00])].
Proof.
  apply (out_data_read_then_upstream_then_stall printer_env vendor_out_2
           (Setup 64 1 0 0 2) printer_state [x00; x00]);
    [reflexivity | reflexivity | cbn; lia | reflexivity].
Defined.

(** C3, as stated, fails: the upstream device rejects the transfer of a
    vendor OUT request with two bytes of data, and the proxy stalls EP0
    after having read the data. *)
Lemma out_data_upstream_failure_stalls :
  dev_ctrl_transfer_out failing_env [GadgetEp0Read 2] (Setup 64 1 0 0 2)
    (Some [x00; x00]) = None /\
  trace (exec (handle_control_request failing_env vendor_out_2) printer_state)
  = [GadgetEp0Read 2;
     UpCtrlTransferOut (Setup 64 1 0 0 2) (Some [x00; x00]);
     GadgetEp0Stall].
Proof. split; reflexivity. Qed.

(** ** Lemmas on the cached descriptors *)

Lemma is_get_descriptor_inv p :
  is_get_descriptor p = true ->
  is_standard p = true /\ bRequest p = USB_REQ_GET_DESCRIPTOR
  /\ is_dir_in p = true.
Proof.
  unfold is_get_descriptor. intros H.
  apply andb_prop in H as [H Hdir]. apply andb_prop in H as [Hstd Hreq].
  apply Z.eqb_eq in Hreq. auto.
Qed.

Lemma length_adjust data :
  length (adjust_bMaxPacketSize0 data) = length data.
Proof.
  unfold adjust_bMaxPacketSize0.
  destruct (8 <=? length data)%nat; [|reflexivity].
  destruct (data !! 7%nat) as [b|]; [|reflexivity].
  destruct (u8 b <? 64); [apply length_insert | reflexivity].
Qed.

Lemma adjust_short data :
  (length data < 8)%nat -> adjust_bMaxPacketSize0 data = data.
Proof.
  intros H. unfold adjust_bMaxPacketSize0.
  apply Nat.leb_gt in H. rewrite H. reflexivity.
Qed.


Lemma adjust_offset_7 data b0 :
  data !! 7%nat = Some b0 ->
  adjust_bMaxPacketSize0 data !! 7%nat
  = Some (if u8 b0 <? 64 then x40 else b0).
Proof.
  intros H. unfold adjust_bMaxPacketSize0.
  assert (Hlt : (7 < length data)%nat) by (eapply lookup_lt_Some; eauto).
  assert (Hle : (8 <=? length data)%nat = true) by (apply Nat.leb_le; lia).
  rewrite Hle, H.
  destruct (u8 b0 <? 64); [|exact H].
  apply list_lookup_insert_eq. exact Hlt.
Qed.


(** What [handle_control_request] does with a GET_DESCRIPTOR request
    that finds its blob in the cache. *)
Lemma get_descriptor_cached env ctrl_data p s blob :
  unpack_setup ctrl_data = Some p ->
  is_get_descriptor p = true ->
  cache_entry s p = Some blob ->
  handle_control_request env ctrl_data s
  = (Return tt,
     log_effect
       (GadgetEp0Write
          (if desc_type p =? USB_DT_DEVICE
           then adjust_bMaxPacketSize0 (upto (wLength p) blob)
           else upto (wLength p) blob)) s).
Proof.
  intros Hp Hgd Hc.
  apply is_get_descriptor_inv in Hgd as (Hstd & Hreq & Hdir).
  unfold handle_control_request. rewrite Hp.
  rewrite Hstd, Hreq, Hdir.
  change (USB_REQ_GET_DESCRIPTOR =? USB_REQ_GET_STATUS) with false.
  change (USB_REQ_GET_DESCRIPTOR =? USB_REQ_GET_DESCRIPTOR) with true.
  cbn [andb].
  unfold try_except, bind, get, ret.
  unfold cache_entry in Hc.
  destruct (desc_type p =? USB_DT_DEVICE) eqn:Edev.
  - rewrite Hc. reflexivity.
  - destruct (desc_type p =? USB_DT_CONFIG) eqn:Ecfg.
    + rewrite Hc. reflexivity.
    + destruct (desc_type p =? USB_DT_STRING) eqn:Estr; [|discriminate].
      rewrite Hc. reflexivity.
Qed.

(** ... and with one that does not. *)
Lemma get_descriptor_uncached env ctrl_data p s :
  unpack_setup ctrl_data = Some p ->
  is_get_descriptor p = true ->
  cache_entry s p = None ->
  handle_control_request env ctrl_data s
  = try_except (forward_in env p) (fun _ => ep0_stall env) s.
Proof.
  intros Hp Hgd Hc.
  apply is_get_descriptor_inv in Hgd as (Hstd & Hreq & Hdir).
  unfold handle_control_request. rewrite Hp.
  rewrite Hstd, Hreq, Hdir.
  change (USB_REQ_GET_DESCRIPTOR =? USB_REQ_GET_STATUS) with false.
  change (USB_REQ_GET_DESCRIPTOR =? USB_REQ_GET_DESCRIPTOR) with true.
  cbn [andb].
  unfold try_except, bind at 1, get.
  unfold cache_entry in Hc.
  destruct (desc_type p =? USB_DT_DEVICE) eqn:Edev.
  - rewrite Hc. apply Z.eqb_eq in Edev. rewrite Edev. reflexivity.
  - destruct (desc_type p =? USB_DT_CONFIG) eqn:Ecfg.
    + rewrite Hc. apply Z.eqb_eq in Ecfg. rewrite Ecfg. reflexivity.
    + destruct (desc_type p =? USB_DT_STRING) eqn:Estr.
      * rewrite Hc. reflexivity.
      * reflexivity.
Qed.

(** The effects of the generic forwarding of an IN request. *)
Lemma forward_in_trace env p s :
  trace (exec (try_except (forward_in env p) (fun _ => ep0_stall env)) s)
  = trace s ++ UpCtrlTransferIn p ::
      match dev_ctrl_transfer_in env (trace s) p with
      | Some data => [GadgetEp0Write data]
      | None => [GadgetEp0Stall]
      end.
Proof.
  unfold exec, try_except, forward_in, bind, ret, usb_ctrl_transfer_in.
  destruct (dev_ctrl_transfer_in env (trace s) p) as [data|];
    cbn [fst snd trace log_effect ep0_write ep0_stall];
    rewrite <- app_assoc; reflexivity.
Qed.

Lemma truthy_None d : d = None \/ d = Some [] -> truthy d = None.
Proof. intros [-> | ->]; reflexivity. Qed.

Lemma cache_entry_device s p :
  desc_type p = USB_DT_DEVICE ->
  cache_entry s p = truthy (device_descriptor s).
Proof. intros H. unfold cache_entry. rewrite H. reflexivity. Qed.




(** The branch that serves a device descriptor from the cache: one EP0
    write, whose byte at offset 7, when the response reaches that far,
    is at least 64: exactly 64 when the cached byte is below 64, the
    cached byte otherwise.  The cached descriptor is the same after the
    request as before. *)
Lemma cached_device_descriptor_clamped env ctrl_data p s dd :
  unpack_setup ctrl_data = Some p ->
  is_get_descriptor p = true ->
  desc_type p = USB_DT_DEVICE ->
  truthy (device_descriptor s) = Some dd ->
  let s' := exec (handle_control_request env ctrl_data) s in
  exists data,
    trace s' = trace s ++ [GadgetEp0Write data] /\
    (forall b, data !! 7%nat = Some b -> 64 <= u8 b) /\
    (forall b0, upto (wLength p) dd !! 7%nat = Some b0 ->
                data !! 7%nat = Some (if u8 b0 <? 64 then x40 else b0)) /\
    device_descriptor s' = device_descriptor s.
Proof.
  intros Hp Hgd Hdev Hdd s'. subst s'.
  rewrite <- (cache_entry_device s p Hdev) in Hdd.
  unfold exec. rewrite (get_descriptor_cached env _ _ _ _ Hp Hgd Hdd).
  rewrite Hdev. change (USB_DT_DEVICE =? USB_DT_DEVICE) with true.
  cbn [snd].
  eexists. split; [reflexivity|].
  split; [|split; [|reflexivity]].
  - intros b Hb.
    destruct (upto (wLength p) dd !! 7%nat) as [b0|] eqn:E0.
    + rewrite (adjust_offset_7 _ _ E0) in Hb. injection Hb as <-.
      destruct (u8 b0 <? 64) eqn:Elt.
      * vm_compute. discriminate.
      * apply Z.ltb_ge in Elt. exact Elt.
    + apply lookup_lt_Some in Hb. rewrite length_adjust in Hb.
      apply lookup_ge_None in E0. lia.
  - intros b0 Hb0. apply adjust_offset_7, Hb0.
Qed.

Lemma cached_device_descriptor_clamped_witness :
  exists data,
    trace (exec (handle_control_request printer_env GET_DESCRIPTOR_device_18)
                printer_state)
    = [GadgetEp0Write data] /\
    data !! 7%nat = Some x40.
Proof.
  destruct (cached_device_descriptor_clamped printer_env
              GET_DESCRIPTOR_device_18 (Setup 128 6 256 0 18) printer_state
              printer_device_descriptor eq_refl eq_refl eq_refl eq_refl)
    as (data & Ht & _ & H7 & _).
  exists data. split; [exact Ht|].
  apply (H7 x08). reflexivity.
Defined.


(** C10. A GET_DESCRIPTOR(device) request.  With a cached descriptor
    there is one EP0 write; its data is the truncated prefix itself
    whenever that prefix has fewer than 8 bytes, in particular whenever
    [wLength < 8], and then it has no byte at offset 7; data that
    differs from the prefix has at least 8 bytes.  With no cached
    descriptor ([None] or empty) the request is forwarded upstream: the
    upstream transfer, then its data written to EP0, or a stall when it
    raised. *)
Theorem device_descriptor_clamp_guards env ctrl_data p s :
  unpack_setup ctrl_data = Some p ->
  is_get_descriptor p = true ->
  desc_type p = USB_DT_DEVICE ->
  let s' := exec (handle_control_request env ctrl_data) s in
  (forall dd, truthy (device_descriptor s) = Some dd ->
     exists data,
       trace s' = trace s ++ [GadgetEp0Write data] /\
       ((length (upto (wLength p) dd) < 8)%nat ->
        data = upto (wLength p) dd) /\
       (wLength p < 8 ->
        data = upto (wLength p) dd /\ data !! 7%nat = None) /\
       (data <> upto (wLength p) dd -> (8 <= length data)%nat)) /\
  (device_descriptor s = None \/ device_descriptor s = Some [] ->
   trace s' = trace s ++ UpCtrlTransferIn p ::
                match dev_ctrl_transfer_in env (trace s) p with
                | Some data => [GadgetEp0Write data]
                | None => [GadgetEp0Stall]
                end).
Proof.
  intros Hp Hgd Hdev s'. subst s'. split.
  - intros dd Hdd.
    rewrite <- (cache_entry_device s p Hdev) in Hdd.
    unfold exec. rewrite (get_descriptor_cached env _ _ _ _ Hp Hgd Hdd).
    rewrite Hdev. change (USB_DT_DEVICE =? USB_DT_DEVICE) with true.
    eexists. split; [reflexivity|].
    assert (Hshort : wLength p < 8 ->
                     (length (upto (wLength p) dd) < 8)%nat).
    { intros H. unfold upto. rewrite length_take. lia. }
    split; [apply adjust_short|].
    split.
    + intros H. rewrite (adjust_short _ (Hshort H)).
      split; [reflexivity|].
      apply lookup_ge_None. specialize (Hshort H). lia.
    + intros Hne. rewrite length_adjust.
      destruct (Nat.le_gt_cases 8 (length (upto (wLength p) dd)))
        as [Hle|Hgt]; [exact Hle|].
      exfalso. apply Hne, adjust_short, Hgt.
  - intros Hnone. apply truthy_None in Hnone.
    rewrite <- (cache_entry_device s p Hdev) in Hnone.
    unfold exec.
    rewrite (get_descriptor_uncached env _ _ _ Hp Hgd Hnone).
    exact (forward_in_trace env p s).
Qed.

Lemma device_descriptor_clamp_guards_witness :
  (exists data,
     trace (exec (handle_control_request printer_env GET_DESCRIPTOR_device_7)
                 printer_state)
     = [GadgetEp0Write data] /\
     data = [x12; x01; x00; x02; xff; x00; x00]) /\
  trace (exec (handle_control_request printer_env GET_DESCRIPTOR_device_18)
              uncached_state)
  = [UpCtrlTransferIn (Setup 128 6 256 0 18);
     GadgetEp0Write printer_device_descriptor].
Proof.
  split.
  - destruct (device_descriptor_clamp_guards printer_env
                GET_DESCRIPTOR_device_7 (Setup 128 6 256 0 7) printer_state
                eq_refl eq_refl eq_refl) as [Hcached _].
    destruct (Hcached printer_device_descriptor eq_refl)
      as (data & Ht & _ & Hd & _).
    exists data. split; [exact Ht|].
    apply Hd. reflexivity.
  - apply (device_descriptor_clamp_guards printer_env
             GET_DESCRIPTOR_device_18 (Setup 128 6 256 0 18) uncached_state
             eq_refl eq_refl eq_refl).
    right. reflexivity.
Defined.

(** ** Computations that only record effects *)

(** Unfold the setters and project the fields of the states they build. *)
Ltac state_simpl :=
  unfold set_endpoint_threads, set_endpoint_queues, set_host_connected,
    set_device_configured, set_endpoints_running, set_configured,
    log_effect, log_effects in *;
  cbn [fst snd running endpoint_threads endpoint_queues device_descriptor
       config_descriptors string_descriptors host_connected
       device_configured endpoints_running configured trace] in *.

Lemma log_effects_nil s : log_effects [] s = s.
Proof. destruct s. unfold log_effects. cbn. rewrite app_nil_r. reflexivity. Qed.

Lemma log_effects_app t1 t2 s :
  log_effects t2 (log_effects t1 s) = log_effects (t1 ++ t2) s.
Proof. unfold log_effects. cbn. rewrite app_assoc. reflexivity. Qed.

Lemma only_logs_ret {A} P (a : A) : only_logs P (ret a).
Proof.
  intros s. exists (Return a), []. rewrite log_effects_nil. auto.
Qed.

Lemma only_logs_raise {A} P e : only_logs P (@raise A e).
Proof.
  intros s. exists (Raise e), []. rewrite log_effects_nil. auto.
Qed.

Lemma only_logs_effect {A} (P : effect -> Prop) e (f : state -> outcome A) :
  P e -> only_logs P (fun s => (f s, log_effect e s)).
Proof.
  intros He s. exists (f s), [e]. split; [reflexivity|]. auto.
Qed.

Lemma only_logs_bind {A B} P (m : M A) (k : A -> M B) :
  only_logs P m -> (forall a, only_logs P (k a)) -> only_logs P (bind m k).
Proof.
  intros Hm Hk s. unfold bind.
  destruct (Hm s) as (o & t & -> & Ht).
  destruct o as [a|e].
  - destruct (Hk a (log_effects t s)) as (o' & t' & -> & Ht').
    exists o', (t ++ t'). rewrite log_effects_app.
    split; [reflexivity|]. apply Forall_app; auto.
  - exists (Raise e), t. auto.
Qed.

Lemma only_logs_try_except {A} P (m : M A) (h : exn -> M A) :
  only_logs P m -> (forall e, only_logs P (h e)) ->
  only_logs P (try_except m h).
Proof.
  intros Hm Hh s. unfold try_except.
  destruct (Hm s) as (o & t & -> & Ht).
  destruct o as [a|e].
  - exists (Return a), t. auto.
  - destruct (Hh e (log_effects t s)) as (o' & t' & -> & Ht').
    exists o', (t ++ t'). rewrite log_effects_app.
    split; [reflexivity|]. apply Forall_app; auto.
Qed.

Lemma only_logs_get {A} P (k : state -> M A) :
  (forall s0, only_logs P (k s0)) -> only_logs P (bind get k).
Proof. intros Hk s. unfold bind, get. apply Hk. Qed.

Lemma only_logs_weaken {A} (P Q : effect -> Prop) (m : M A) :
  (forall e, P e -> Q e) -> only_logs P m -> only_logs Q m.
Proof.
  intros HPQ Hm s. destruct (Hm s) as (o & t & Hs & Ht).
  exists o, t. split; [exact Hs|]. eapply Forall_impl; eauto.
Qed.

(** The steps of the case analysis of a computation built from the
    monad's operations and the wrappers of the gadget and the device. *)
Ltac only_logs_step :=
  match goal with
  | |- only_logs _ (ret _) => apply only_logs_ret
  | |- only_logs _ (raise _) => apply only_logs_raise
  | |- only_logs _ (bind get _) => apply only_logs_get; intros ?
  | |- only_logs _ (bind _ _) => apply only_logs_bind; [|intros ?]
  | |- only_logs _ (try_except _ _) =>
      apply only_logs_try_except; [|intros ?]
  | |- only_logs _ (if ?c then _ else _) => destruct c
  | |- only_logs _ (match ?c with Some _ => _ | None => _ end) => destruct c
  | |- only_logs _ (ep0_read _ _) =>
      apply only_logs_effect; first [exact I | reflexivity]
  | |- only_logs _ (ep0_write _ _) =>
      apply only_logs_effect; first [exact I | reflexivity]
  | |- only_logs _ (ep0_stall _) =>
      apply only_logs_effect; first [exact I | reflexivity]
  | |- only_logs _ (usb_ctrl_transfer_in _ _) =>
      apply only_logs_effect; reflexivity
  | |- only_logs _ (usb_ctrl_transfer_out _ _ _) =>
      apply only_logs_effect; reflexivity
  | |- only_logs _ (forward_in _ _) => unfold forward_in
  end.

(** [handle_control_request] changes nothing in the state, and the
    upstream control transfers it makes carry the request it was given. *)
Lemma handle_control_request_only_logs env ctrl_data p :
  unpack_setup ctrl_data = Some p ->
  only_logs (on_behalf_of p) (handle_control_request env ctrl_data).
Proof.
  intros Hp. unfold handle_control_request. rewrite Hp.
  repeat only_logs_step.
Qed.

(** ** [setup_endpoints] *)

Lemma for_each_app {A} (l1 l2 : list A) body s :
  for_each (l1 ++ l2) body s
  = bind (for_each l1 body) (fun _ => for_each l2 body) s.
Proof.
  revert s. induction l1 as [|x l1 IH]; intros s; [reflexivity|].
  cbn [for_each app]. unfold bind.
  destruct (body x s) as [[[]|e] s1]; [|reflexivity].
  rewrite IH. reflexivity.
Qed.

Lemma for_each_concat {A B} (f : A -> list B) body (l : list A) s :
  for_each l (fun x => for_each (f x) body) s
  = for_each (concat (map f l)) body s.
Proof.
  revert s. induction l as [|x l IH]; intros s; [reflexivity|].
  cbn [for_each map concat]. rewrite for_each_app.
  unfold bind.
  destruct (for_each (f x) body s) as [[[]|e] s1]; [|reflexivity].
  apply IH.
Qed.

Lemma setup_endpoint_run env ep s :
  exists ep_num,
    setup_endpoint env ep s
    = (Return tt,
       State (running s)
             (endpoint_threads s ++ [(endpoint_workers ep ep_num).1;
                                     (endpoint_workers ep ep_num).2])
             (<[bEndpointAddress ep := []]> (endpoint_queues s))
             (device_descriptor s) (config_descriptors s)
             (string_descriptors s) (host_connected s)
             (device_configured s) (endpoints_running s) (configured s)
             (trace s ++ endpoint_effects ep ep_num)).
Proof.
  eexists. unfold setup_endpoint, thread_start.
  unfold bind, ep_enable, modify, endpoint_effects. state_simpl.
  rewrite <- !app_assoc. reflexivity.
Qed.

Lemma setup_each_endpoint env eps : forall s,
  exists ep_nums qs,
    length ep_nums = length eps /\
    (eps = [] -> qs = endpoint_queues s) /\
    for_each eps (setup_endpoint env) s
    = (Return tt,
       State (running s)
             (endpoint_threads s ++ spawned_workers eps ep_nums) qs
             (device_descriptor s) (config_descriptors s)
             (string_descriptors s) (host_connected s)
             (device_configured s) (endpoints_running s) (configured s)
             (trace s ++ setup_effects eps ep_nums)).
Proof.
  induction eps as [|ep eps IH]; intros s.
  - exists [], (endpoint_queues s). split; [reflexivity|].
    split; [reflexivity|].
    destruct s. cbn. rewrite !app_nil_r. reflexivity.
  - destruct (setup_endpoint_run env ep s) as (n & Hn).
    cbn [for_each]. unfold bind. rewrite Hn.
    match goal with |- context [for_each eps _ ?s1] =>
      destruct (IH s1) as (ns & qs & Hlen & _ & ->) end.
    exists (n :: ns), qs. split; [cbn; lia|].
    split; [discriminate|].
    cbn. rewrite <- !app_assoc. reflexivity.
Qed.

(** [setup_endpoints] does not raise; it enables and spawns for every
    endpoint of the configuration, in order. *)
Lemma setup_endpoints_run env config_value s :
  exists ep_nums qs,
    let eps := config_endpoints env config_value in
    length ep_nums = length eps /\
    (eps = [] -> qs = endpoint_queues s) /\
    setup_endpoints env config_value s
    = (Return tt,
       State (running s)
             (endpoint_threads s ++ spawned_workers eps ep_nums) qs
             (device_descriptor s) (config_descriptors s)
             (string_descriptors s) (host_connected s)
             (device_configured s) (endpoints_running s) (configured s)
             (trace s ++ setup_effects eps ep_nums)).
Proof.
  unfold setup_endpoints, config_endpoints.
  destruct (find_config (dev_configurations env) config_value)
    as [[idx cfg]|].
  - rewrite for_each_concat. apply setup_each_endpoint.
  - exists [], (endpoint_queues s). cbn.
    split; [reflexivity|]. split; [reflexivity|].
    destruct s. cbn. rewrite !app_nil_r. reflexivity.
Qed.


Lemma setup_effects_no_set_address eps ep_nums :
  Forall (fun e => is_upstream_set_address e = false)
         (setup_effects eps ep_nums).
Proof.
  unfold setup_effects. revert ep_nums.
  induction eps as [|ep eps IH]; intros [|n ns]; cbn; try constructor.
  - reflexivity.
  - constructor; [reflexivity|]. constructor; [reflexivity|]. apply IH.
Qed.

Lemma spawned_workers_nil eps ep_nums :
  length ep_nums = length eps ->
  spawned_workers eps ep_nums = [] -> eps = [].
Proof.
  destruct eps as [|ep eps]; [reflexivity|].
  destruct ep_nums as [|n ns]; cbn; discriminate.
Qed.

(** ** [cleanup_endpoints] *)

Lemma join_each_thread env threads : forall s,
  exists joined,
    joined `sublist_of` threads /\
    (forall w, w ∈ threads -> w ∉ joined ->
               exists t, thread_is_alive env t w = false) /\
    for_each threads (join_thread env) s
    = (Return tt, log_effects (map ThreadJoin joined) s).
Proof.
  induction threads as [|w threads IH]; intros s.
  - exists []. split; [constructor|]. split.
    + intros w Hw. inversion Hw.
    + cbn. rewrite log_effects_nil. reflexivity.
  - cbn [for_each]. unfold join_thread at 1.
    unfold bind, is_alive, thread_join, modify, ret.
    destruct (thread_is_alive env (trace s) w) eqn:Ealive.
    + destruct (IH (log_effect (ThreadJoin w) s))
        as (joined & Hsub & Hdead & ->).
      exists (w :: joined). split; [constructor; exact Hsub|]. split.
      * intros w' Hw' Hnot. apply Hdead.
        -- apply elem_of_cons in Hw' as [->|Hw']; [|exact Hw'].
           exfalso. apply Hnot. left.
        -- intros Hin. apply Hnot. right. exact Hin.
      * change (log_effect (ThreadJoin w) s)
          with (log_effects [ThreadJoin w] s).
        rewrite log_effects_app. reflexivity.
    + destruct (IH s) as (joined & Hsub & Hdead & ->).
      exists joined. split; [apply sublist_cons; exact Hsub|]. split.
      * intros w' Hw' Hnot.
        apply elem_of_cons in Hw' as [->|Hw']; [eauto|].
        apply Hdead; assumption.
      * reflexivity.
Qed.

(** [cleanup_endpoints] does not raise.  Without threads it does
    nothing; otherwise it lowers the flag, joins the threads it finds
    alive, clears the list and the queues, and raises the flag again. *)
Lemma cleanup_endpoints_run env s :
  exists joined,
    joined `sublist_of` endpoint_threads s /\
    (forall w, w ∈ endpoint_threads s -> w ∉ joined ->
               exists t, thread_is_alive env t w = false) /\
    cleanup_endpoints env s
    = (Return tt,
       match endpoint_threads s with
       | [] => s
       | _ :: _ =>
           State (running s) [] ∅ (device_descriptor s)
                 (config_descriptors s) (string_descriptors s)
                 (host_connected s) (device_configured s) true
                 (configured s)
                 (trace s ++ teardown_effects (endpoint_threads s) joined)
       end).
Proof.
  unfold cleanup_endpoints, bind at 1, get.
  destruct (endpoint_threads s) as [|w ws] eqn:Eth.
  - exists []. split; [constructor|]. split; [|reflexivity].
    intros w Hw. inversion Hw.
  - unfold bind at 1, modify at 1. unfold bind at 1.
    match goal with |- context [for_each _ _ ?s1] =>
      destruct (join_each_thread env (w :: ws) s1)
        as (joined & Hsub & Hdead & Hrun) end.
    exists joined. split; [exact Hsub|]. split; [exact Hdead|].
    rewrite Hrun. unfold bind, modify. state_simpl.
    unfold teardown_effects. rewrite <- !app_assoc. reflexivity.
Qed.

(** ** One turn of the loop *)

Lemma unpack_setup_length data p :
  unpack_setup data = Some p -> (8 <= length data)%nat.
Proof.
  unfold unpack_setup. intros H.
  destruct (take 8 data)
    as [|b0 [|b1 [|b2 [|b3 [|b4 [|b5 [|b6 [|b7 [|b8 l]]]]]]]]] eqn:E;
    try discriminate.
  apply (f_equal length) in E. rewrite length_take in E.
  cbn [length] in E. lia.
Qed.

Lemma exec_try_except_ret m s :
  exec (try_except m (fun _ => ret tt)) s = exec m s.
Proof.
  unfold exec, try_except, ret. destruct (m s) as [[[]|e] s1]; reflexivity.
Qed.

(** The SET_CONFIGURATION branch of [ep0_loop], when the upstream device
    and the gadget accept the configuration. *)
Lemma set_configuration_run env data p s :
  unpack_setup data = Some p ->
  is_standard p = true ->
  bRequest p = USB_REQ_SET_CONFIGURATION ->
  configured s = false ->
  dev_set_configuration env (trace s) (wValue p) = true ->
  ioctl_configure env (trace s ++ [UpSetConfiguration (wValue p)]) = true ->
  exists ep_nums qs,
    let eps := config_endpoints env (wValue p) in
    length ep_nums = length eps /\
    (eps = [] -> qs = endpoint_queues s) /\
    handle_control_event env data s
    = (ep0_read env 0 ;; ret tt)
        (State (running s)
               (endpoint_threads s ++ spawned_workers eps ep_nums) qs
               (device_descriptor s) (config_descriptors s)
               (string_descriptors s) (host_connected s) true
               (endpoints_running s) true
               (trace s ++ [UpSetConfiguration (wValue p); GadgetConfigure]
                  ++ setup_effects eps ep_nums)) .
Proof.
  intros Hp Hstd Hreq Hcfg Hset Hconf.
  unfold handle_control_event. rewrite Hp.
  unfold bind at 1, get. rewrite Hstd, Hreq, Hcfg.
  change (USB_REQ_SET_CONFIGURATION =? USB_REQ_SET_ADDRESS) with false.
  change (USB_REQ_SET_CONFIGURATION =? USB_REQ_GET_STATUS) with false.
  change (USB_REQ_SET_CONFIGURATION =? USB_REQ_GET_CONFIGURATION) with false.
  change (USB_REQ_SET_CONFIGURATION =? USB_REQ_SET_CONFIGURATION) with true.
  cbn [andb negb].
  unfold bind at 1, usb_set_configuration. rewrite Hset.
  unfold bind at 1, configure_gadget. state_simpl. rewrite Hconf.
  unfold bind at 1.
  match goal with |- context [setup_endpoints env ?v ?s1] =>
    destruct (setup_endpoints_run env v s1) as (ns & qs & Hlen & Hqs & Hrun)
  end.
  cbn zeta in Hlen, Hqs, Hrun. rewrite Hrun. state_simpl.
  exists ns, qs. split; [exact Hlen|]. split; [exact Hqs|].
  unfold bind, modify, ret. state_simpl.
  rewrite <- !app_assoc. reflexivity.
Qed.

Lemma ep0_loop_body_control env raw data s :
  fetch_event raw = (USB_RAW_EVENT_CONTROL, data) ->
  (8 <= length data)%nat ->
  exec (ep0_loop_body env raw) s = exec (handle_control_event env data) s.
Proof.
  intros Hev Hlen. unfold ep0_loop_body.
  rewrite exec_try_except_ret. rewrite Hev.
  change (USB_RAW_EVENT_CONTROL =? 0) with false.
  change (USB_RAW_EVENT_CONTROL =? USB_RAW_EVENT_RESET) with false.
  change (USB_RAW_EVENT_CONTROL =? USB_RAW_EVENT_DISCONNECT) with false.
  change (USB_RAW_EVENT_CONTROL =? USB_RAW_EVENT_CONTROL) with true.
  cbn [orb negb].
  apply Nat.ltb_ge in Hlen. rewrite Hlen. reflexivity.
Qed.



(** C2: what the code does when a step of SET_CONFIGURATION fails.
    When the upstream [set_configuration] raises, the only effect of the
    turn is that call: EP0 is not stalled.  When the gadget [configure]
    raises, the turn ends after it, again without a stall.
    SET_CONFIGURATION(0) names no configuration of the printer:
    [setup_endpoints] returns without an endpoint, and the turn goes on
    to set [device_configured] and to ACK the request. *)
Theorem set_configuration_failure_not_stalled :
  let s1 := exec (ep0_loop_body failing_env
                    (control_event SET_CONFIGURATION_1)) printer_state in
  let s2 := exec (ep0_loop_body unconfigurable_env
                    (control_event SET_CONFIGURATION_1)) printer_state in
  let s3 := exec (ep0_loop_body printer_env
                    (control_event SET_CONFIGURATION_0)) printer_state in
  dev_set_configuration failing_env (trace printer_state) 1 = false /\
  trace s1 = [UpSetConfiguration 1] /\
  device_configured s1 = false /\
  ioctl_configure unconfigurable_env [UpSetConfiguration 1] = false /\
  trace s2 = [UpSetConfiguration 1; GadgetConfigure] /\
  device_configured s2 = false /\
  find_config (dev_configurations printer_env) 0 = None /\
  trace s3 = [UpSetConfiguration 0; GadgetConfigure; GadgetEp0Read 0] /\
  device_configured s3 = true.
Proof. vm_compute. repeat split. Qed.

(** ** The invariant of the loop *)

Lemma step_ok_refl s : loop_invariant s -> step_ok s s.
Proof.
  intros H. split; [exact H|]. exists []. rewrite app_nil_r. auto.
Qed.

Lemma step_ok_trans s1 s2 s3 : step_ok s1 s2 -> step_ok s2 s3 -> step_ok s1 s3.
Proof.
  intros (_ & t1 & Ht1 & HP1) (Hinv & t2 & Ht2 & HP2).
  split; [exact Hinv|]. exists (t1 ++ t2).
  rewrite Ht2, Ht1, app_assoc. split; [reflexivity|].
  apply Forall_app; auto.
Qed.

Lemma step_ok_log t s :
  loop_invariant s ->
  Forall (fun e => is_upstream_set_address e = false) t ->
  step_ok s (log_effects t s).
Proof.
  intros Hinv Ht. split; [exact Hinv|]. exists t. auto.
Qed.

Lemma only_logs_step_ok {A} (m : M A) s :
  only_logs (fun e => is_upstream_set_address e = false) m ->
  loop_invariant s -> step_ok s (exec m s).
Proof.
  intros Hm Hinv. unfold exec.
  destruct (Hm s) as (o & t & -> & Ht). apply step_ok_log; assumption.
Qed.

Lemma loop_invariant_init dd cds sds : loop_invariant (init_state dd cds sds).
Proof. repeat split. Qed.

(** "Clean up endpoints if configured", from a state of the loop. *)
Lemma cleanup_if_configured_run env s :
  loop_invariant s ->
  exists joined,
    joined `sublist_of` endpoint_threads s /\
    (forall w, w ∈ endpoint_threads s -> w ∉ joined ->
               exists t, thread_is_alive env t w = false) /\
    cleanup_if_configured env s
    = (Return tt,
       State (running s) [] ∅ (device_descriptor s) (config_descriptors s)
             (string_descriptors s) (host_connected s) false
             (match endpoint_threads s with
              | [] => endpoints_running s
              | _ :: _ => true
              end)
             false
             (trace s ++ teardown_effects (endpoint_threads s) joined)).
Proof.
  intros (Hc & Hthr & Hq).
  unfold cleanup_if_configured, bind at 1, get.
  destruct (configured s || device_configured s) eqn:E.
  - destruct (cleanup_endpoints_run env s) as (joined & Hsub & Hdead & Hrun).
    exists joined. split; [exact Hsub|]. split; [exact Hdead|].
    unfold bind at 1. rewrite Hrun. unfold bind, modify. state_simpl.
    destruct (endpoint_threads s) as [|w ws] eqn:Eth.
    + state_simpl. rewrite Eth, (Hq eq_refl). cbn [teardown_effects].
      rewrite app_nil_r. reflexivity.
    + reflexivity.
  - apply orb_false_elim in E as [Ec Ed].
    specialize (Hthr Ed). specialize (Hq Hthr).
    exists []. rewrite Hthr. split; [constructor|]. split.
    + intros w Hw. inversion Hw.
    + unfold ret. destruct s. cbn in *. subst.
      rewrite app_nil_r. reflexivity.
Qed.

Lemma cleanup_if_configured_step env s :
  loop_invariant s -> step_ok s (exec (cleanup_if_configured env) s).
Proof.
  intros Hinv.
  destruct (cleanup_if_configured_run env s Hinv) as (joined & _ & _ & Hrun).
  unfold exec. rewrite Hrun. split.
  - repeat split.
  - eexists. split; [reflexivity|].
    unfold teardown_effects. destruct (endpoint_threads s); [constructor|].
    constructor; [reflexivity|]. apply Forall_app. split.
    + apply Forall_map. apply Forall_true. reflexivity.
    + repeat constructor.
Qed.

Lemma loop_invariant_set_host_connected b s :
  loop_invariant s -> step_ok s (set_host_connected b s).
Proof.
  intros Hinv. split; [exact Hinv|].
  exists []. cbn. rewrite app_nil_r. auto.
Qed.

Lemma on_behalf_of_not_set_address p e :
  is_standard p && (bRequest p =? USB_REQ_SET_ADDRESS) = false ->
  on_behalf_of p e -> is_upstream_set_address e = false.
Proof.
  intros Hp He. destruct e; cbn in *; subst; auto.
Qed.

Lemma handle_control_event_step env data s :
  loop_invariant s -> step_ok s (exec (handle_control_event env data) s).
Proof.
  intros Hinv. unfold handle_control_event.
  destruct (unpack_setup data) as [p|] eqn:Hp; [|apply step_ok_refl, Hinv].
  unfold exec, bind at 1, get.
  destruct (is_standard p && (bRequest p =? USB_REQ_SET_ADDRESS)) eqn:E1.
  { apply only_logs_step_ok; [|exact Hinv]. repeat only_logs_step. }
  destruct (is_standard p && (bRequest p =? USB_REQ_GET_STATUS)
            && is_dir_in p).
  { apply only_logs_step_ok; [|exact Hinv]. repeat only_logs_step. }
  destruct (is_standard p && (bRequest p =? USB_REQ_GET_CONFIGURATION)
            && is_dir_in p).
  { apply only_logs_step_ok; [|exact Hinv]. repeat only_logs_step. }
  destruct (is_standard p && (bRequest p =? USB_REQ_SET_CONFIGURATION)
            && negb (configured s)) eqn:E4.
  - apply andb_prop in E4 as [E4 Hcfg]. apply andb_prop in E4 as [Hstd Hreq].
    apply Z.eqb_eq in Hreq. apply negb_true_iff in Hcfg.
    destruct (dev_set_configuration env (trace s) (wValue p)) eqn:Hset.
    + destruct (ioctl_configure env
                  (trace s ++ [UpSetConfiguration (wValue p)])) eqn:Hconf.
      * pose proof (set_configuration_run env data p s Hp Hstd Hreq Hcfg
                      Hset Hconf) as (ns & qs & Hlen & Hqs & Hrun).
        cbn zeta in Hlen, Hqs, Hrun.
        unfold handle_control_event in Hrun. rewrite Hp in Hrun.
        unfold bind at 1, get in Hrun.
        rewrite Hstd, Hreq, Hcfg in Hrun.
        change (USB_REQ_SET_CONFIGURATION =? USB_REQ_SET_ADDRESS)
          with false in Hrun.
        change (USB_REQ_SET_CONFIGURATION =? USB_REQ_GET_STATUS)
          with false in Hrun.
        change (USB_REQ_SET_CONFIGURATION =? USB_REQ_GET_CONFIGURATION)
          with false in Hrun.
        change (USB_REQ_SET_CONFIGURATION =? USB_REQ_SET_CONFIGURATION)
          with true in Hrun.
        cbn [andb negb] in Hrun. rewrite Hrun.
        destruct Hinv as (Hc & Hthr & Hq).
        unfold bind, ep0_read, ret. state_simpl.
        split.
        -- split; [reflexivity|]. split; [discriminate|].
           intros Hnil. apply app_eq_nil in Hnil as [Hnil1 Hnil2].
           rewrite (Hqs (spawned_workers_nil _ _ Hlen Hnil2)).
           apply Hq, Hnil1.
        -- eexists. split; [rewrite <- app_assoc; reflexivity|].
           repeat (apply Forall_app; split); try (repeat constructor).
           apply setup_effects_no_set_address.
      * unfold bind, usb_set_configuration, configure_gadget.
        rewrite Hset. state_simpl. rewrite Hconf. state_simpl.
        split; [exact Hinv|]. eexists.
        split; [rewrite <- app_assoc; reflexivity|]. repeat constructor.
    + unfold bind, usb_set_configuration. rewrite Hset. state_simpl.
      split; [exact Hinv|]. eexists.
      split; [reflexivity|]. repeat constructor.
  - apply only_logs_step_ok; [|exact Hinv].
    eapply only_logs_weaken;
      [|apply (handle_control_request_only_logs env data p Hp)].
    intros e. apply on_behalf_of_not_set_address, E1.
Qed.

Lemma usb_reset_step env s :
  loop_invariant s ->
  step_ok s (exec (try_except (usb_reset env) (fun _ => ret tt)) s).
Proof.
  intros Hinv. apply only_logs_step_ok; [|exact Hinv].
  apply only_logs_try_except; [|intros ?; apply only_logs_ret].
  apply only_logs_effect. reflexivity.
Qed.

Lemma exec_bind_return {A B} (m : M A) (k : A -> M B) s a s1 :
  m s = (Return a, s1) -> exec (bind m k) s = exec (k a) s1.
Proof. intros H. unfold exec, bind. rewrite H. reflexivity. Qed.

(** Every turn of the loop keeps the invariant and forwards no
    SET_ADDRESS. *)
Lemma ep0_loop_body_step env raw s :
  loop_invariant s -> step_ok s (exec (ep0_loop_body env raw) s).
Proof.
  intros Hinv. unfold ep0_loop_body. rewrite exec_try_except_ret.
  destruct (fetch_event raw) as [event_type event_data].
  destruct (event_type =? 0); [apply step_ok_refl, Hinv|].
  destruct ((event_type =? USB_RAW_EVENT_RESET)
            || (event_type =? USB_RAW_EVENT_DISCONNECT)).
  - assert (Hpre : exists s0, step_ok s s0 /\
              (if event_type =? USB_RAW_EVENT_RESET then ret tt
               else modify (set_host_connected false)) s = (Return tt, s0)).
    { destruct (event_type =? USB_RAW_EVENT_RESET).
      - exists s. split; [apply step_ok_refl, Hinv | reflexivity].
      - eexists. split; [|reflexivity].
        apply loop_invariant_set_host_connected, Hinv. }
    destruct Hpre as (s0 & Hs0 & Hrun0).
    rewrite (exec_bind_return _ _ _ _ _ Hrun0).
    destruct (cleanup_if_configured_run env s0 (proj1 Hs0))
      as (joined & _ & _ & Hrun1).
    pose proof (cleanup_if_configured_step env s0 (proj1 Hs0)) as Hs1.
    unfold exec in Hs1 at 1. rewrite Hrun1 in Hs1. cbn [snd] in Hs1.
    rewrite (exec_bind_return _ _ _ _ _ Hrun1).
    eapply step_ok_trans; [exact Hs0|].
    eapply step_ok_trans; [exact Hs1|].
    apply usb_reset_step, Hs1.
  - destruct (negb (event_type =? USB_RAW_EVENT_CONTROL)).
    + destruct (event_type =? USB_RAW_EVENT_CONNECT);
        [|apply step_ok_refl, Hinv].
      pose proof (loop_invariant_set_host_connected true s Hinv) as Hs0.
      rewrite (exec_bind_return (modify (set_host_connected true)) _ s tt
                 (set_host_connected true s) eq_refl).
      eapply step_ok_trans; [exact Hs0|].
      apply cleanup_if_configured_step, Hs0.
    + destruct (length event_data <? 8)%nat.
      * apply only_logs_step_ok; [|exact Hinv].
        apply only_logs_effect. reflexivity.
      * apply handle_control_event_step, Hinv.
Qed.

Lemma ep0_events_step env events : forall s,
  loop_invariant s -> step_ok s (exec (ep0_events env events) s).
Proof.
  induction events as [|raw events IH]; intros s Hinv.
  - apply step_ok_refl, Hinv.
  - cbn [ep0_events]. unfold exec, bind at 1, get.
    destruct (running s); [|apply step_ok_refl, Hinv].
    pose proof (ep0_loop_body_step env raw s Hinv) as Hstep.
    unfold exec in Hstep. unfold bind.
    destruct (ep0_loop_body env raw s) as [[[]|e] s1]; cbn [snd] in *.
    + eapply step_ok_trans; [exact Hstep|].
      apply IH, Hstep.
    + exact Hstep.
Qed.

Lemma ep0_loop_step env events dd cds sds :
  step_ok (init_state dd cds sds)
          (exec (ep0_loop env events) (init_state dd cds sds)).
Proof.
  unfold ep0_loop.
  rewrite (exec_bind_return (modify (set_configured false)) _
             (init_state dd cds sds) tt (init_state dd cds sds) eq_refl).
  apply ep0_events_step, loop_invariant_init.
Qed.




(** C8. In any run of the loop, from a new proxy with any cached
    descriptors and against any environment, no upstream control
    transfer carries a standard SET_ADDRESS (standard type, request
    0x05); and the turn for a CONTROL event with such a request has one
    effect, the ACK [ep0_read(0)]. *)
Theorem set_address_never_forwarded env :
  (forall events dd cds sds,
     Forall (fun e => is_upstream_set_address e = false)
            (trace (exec (ep0_loop env events) (init_state dd cds sds)))) /\
  (forall raw data p s,
     fetch_event raw = (USB_RAW_EVENT_CONTROL, data) ->
     unpack_setup data = Some p ->
     is_standard p = true ->
     bRequest p = USB_REQ_SET_ADDRESS ->
     trace (exec (ep0_loop_body env raw) s) = trace s ++ [GadgetEp0Read 0]).
Proof.
  split.
  - intros events dd cds sds.
    destruct (ep0_loop_step env events dd cds sds) as (_ & t & -> & Ht).
    exact Ht.
  - intros raw data p s Hev Hp Hstd Hreq.
    rewrite (ep0_loop_body_control env raw data s Hev
               (unpack_setup_length _ _ Hp)).
    unfold exec, handle_control_event. rewrite Hp.
    unfold bind at 1, get. rewrite Hstd, Hreq.
    change (USB_REQ_SET_ADDRESS =? USB_REQ_SET_ADDRESS) with true.
    cbn [andb]. reflexivity.
Qed.

Lemma set_address_never_forwarded_witness :
  trace (exec (ep0_loop_body printer_env (control_event SET_ADDRESS_5))
              printer_state)
  = [GadgetEp0Read 0].
Proof.
  assert (Hev : fetch_event (control_event SET_ADDRESS_5)
                = (USB_RAW_EVENT_CONTROL, SET_ADDRESS_5))
    by (vm_compute; reflexivity).
  exact (proj2 (set_address_never_forwarded printer_env)
           (control_event SET_ADDRESS_5) SET_ADDRESS_5 (Setup 0 5 5 0 0)
           printer_state Hev eq_refl eq_refl eq_refl).
Defined.

(** * Further properties *)

(** ** Integers and bytes *)

Lemma u8_byte_of_Z z : u8 (byte_of_Z z) = z mod 256.
Proof.
  unfold u8, byte_of_Z.
  assert (Hr : 0 <= z mod 256 < 256) by (apply Z.mod_pos_bound; lia).
  destruct (Byte.of_N (Z.to_N (z mod 256))) as [b|] eqn:E.
  - apply Byte.to_of_N in E. rewrite E. lia.
  - apply Byte.of_N_None_iff in E. lia.
Qed.

Lemma u8_range b : 0 <= u8 b < 256.
Proof.
  unfold u8. pose proof (Byte.to_N_bounded b). lia.
Qed.

Lemma le_uint_pack_u16 z : 0 <= z < 65536 -> le_uint (pack_u16 z) = z.
Proof.
  intros H. unfold pack_u16. cbn [le_uint].
  rewrite !u8_byte_of_Z.
  Z.div_mod_to_equations. lia.
Qed.

Lemma le_uint_pack_u32 z : 0 <= z < 4294967296 -> le_uint (pack_u32 z) = z.
Proof.
  intros H. unfold pack_u32. cbn [le_uint].
  rewrite !u8_byte_of_Z.
  Z.div_mod_to_equations. lia.
Qed.

(** ** ioctl numbers *)

Lemma land_shiftl_low hi lo k :
  0 <= k -> 0 <= lo < 2 ^ k -> Z.land (Z.shiftl hi k) lo = 0.
Proof.
  intros Hk Hlo. apply Z.bits_inj'. intros n Hn.
  rewrite Z.land_spec, Z.bits_0.
  destruct (Z.lt_ge_cases n k) as [Hlt|Hge].
  - rewrite Z.shiftl_spec_low by exact Hlt. reflexivity.
  - rewrite <- (Z.mod_small lo (2 ^ k)) by exact Hlo.
    rewrite Z.mod_pow2_bits_high by lia. apply andb_false_r.
Qed.

Lemma lor_shiftl_add hi lo k :
  0 <= k -> 0 <= lo < 2 ^ k ->
  Z.lor (Z.shiftl hi k) lo = hi * 2 ^ k + lo.
Proof.
  intros Hk Hlo.
  pose proof (Z.add_lor_land (Z.shiftl hi k) lo) as H.
  rewrite (land_shiftl_low hi lo k Hk Hlo) in H.
  rewrite <- (Z.shiftl_mul_pow2 hi k Hk). lia.
Qed.

(** The number that [_IOC] builds, for fields that fit. *)
Lemma _IOC_sum direction ioctl_type nr size :
  0 <= nr < 256 -> 0 <= size < 16384 ->
  _IOC direction ioctl_type nr size
  = direction * 2 ^ 30 + size * 2 ^ 16 + u8 ioctl_type * 2 ^ 8 + nr.
Proof.
  intros Hnr Hsize. unfold _IOC.
  pose proof (u8_range ioctl_type) as Ht.
  rewrite Z.shiftl_0_r.
  rewrite <- !Z.lor_assoc.
  rewrite (Z.lor_comm nr (Z.shiftl size 16)).
  rewrite (Z.lor_assoc (Z.shiftl (u8 ioctl_type) 8)).
  rewrite (Z.lor_comm (Z.shiftl (u8 ioctl_type) 8) (Z.shiftl size 16)).
  rewrite <- (Z.lor_assoc (Z.shiftl size 16)).
  rewrite (lor_shiftl_add (u8 ioctl_type) nr 8) by lia.
  rewrite (lor_shiftl_add size _ 16) by lia.
  rewrite (lor_shiftl_add direction _ 30) by lia.
  lia.
Qed.

(** X1. An ioctl number built by [_IOC] from a command number below 256
    and a size below 2^14 gives back its four fields: the direction in
    the bits from 30 up, the size in bits 16 to 29, the type character
    in bits 8 to 15 and the command number in the low byte. *)
Theorem _IOC_fields direction ioctl_type nr size :
  0 <= direction ->
  0 <= nr < 256 ->
  0 <= size < 16384 ->
  let ioc := _IOC direction ioctl_type nr size in
  ioc_dir ioc = direction /\
  ioc_size ioc = size /\
  ioc_type ioc = u8 ioctl_type /\
  ioc_nr ioc = nr.
Proof.
  intros Hd Hnr Hsize ioc. subst ioc.
  pose proof (u8_range ioctl_type) as Ht.
  unfold ioc_dir, ioc_size, ioc_type, ioc_nr.
  rewrite (_IOC_sum direction ioctl_type nr size Hnr Hsize).
  change 255 with (Z.ones 8). change 16383 with (Z.ones 14).
  rewrite !Z.land_ones by lia.
  rewrite !Z.shiftr_div_pow2 by lia.
  change (2 ^ 30) with 1073741824. change (2 ^ 16) with 65536.
  change (2 ^ 14) with 16384. change (2 ^ 8) with 256.
  repeat split; Z.div_mod_to_equations; lia.
Qed.

Lemma _IOC_fields_witness :
  ioc_dir USB_RAW_IOCTL_EPS_INFO = 2 /\
  ioc_size USB_RAW_IOCTL_EPS_INFO = 1920 /\
  ioc_type USB_RAW_IOCTL_EPS_INFO = 85 /\
  ioc_nr USB_RAW_IOCTL_EPS_INFO = 11.
Proof.
  apply (_IOC_fields 2 x55 11 1920); lia.
Defined.

(** ** [init_gadget] *)

Lemma length_padded_name encoded : length (padded_name encoded) = 128%nat.
Proof.
  unfold padded_name. rewrite length_app, length_replicate, length_take. lia.
Qed.

Lemma padded_name_lookup encoded (i : nat) :
  (i < 127)%nat ->
  padded_name encoded !! i = Some (default x00 (encoded !! i)).
Proof.
  intros Hi. unfold padded_name.
  destruct (encoded !! i) as [b|] eqn:E.
  - rewrite lookup_app_l.
    + rewrite lookup_take_lt by exact Hi. rewrite E. reflexivity.
    + rewrite length_take. apply lookup_lt_Some in E. lia.
  - apply lookup_ge_None in E.
    rewrite lookup_app_r by (rewrite length_take; lia).
    rewrite lookup_replicate_2; [reflexivity|].
    rewrite length_take. lia.
Qed.

Lemma padded_name_terminated encoded :
  padded_name encoded !! 127%nat = Some x00.
Proof.
  unfold padded_name.
  rewrite lookup_app_r by (rewrite length_take; lia).
  apply lookup_replicate_2. rewrite length_take. lia.
Qed.

(** X2. The structure that [init_gadget] passes to the INIT ioctl has
    257 bytes, the size that the ioctl number carries, whatever the
    names.  Each name field holds the first 127 bytes of the encoded
    name, zeros after them, and always a zero in its last byte; the last
    byte of the structure is the speed, 3. *)
Theorem init_struct_layout driver_name device_name :
  let s := init_struct driver_name device_name in
  Z.of_nat (length s) = ioc_size USB_RAW_IOCTL_INIT /\
  length s = 257%nat /\
  (forall i : nat, (i < 127)%nat ->
     s !! i = Some (default x00 (driver_name !! i)) /\
     s !! (128 + i)%nat = Some (default x00 (device_name !! i))) /\
  s !! 127%nat = Some x00 /\
  s !! 255%nat = Some x00 /\
  s !! 256%nat = Some x03.
Proof.
  intros s. subst s. unfold init_struct.
  assert (Hlen : length (padded_name driver_name ++ padded_name device_name
                         ++ [byte_of_Z USB_SPEED_HIGH]) = 257%nat).
  { rewrite !length_app, !length_padded_name. reflexivity. }
  split; [rewrite Hlen; reflexivity|].
  split; [exact Hlen|].
  split; [|split; [|split]].
  - intros i Hi. split.
    + rewrite lookup_app_l by (rewrite length_padded_name; lia).
      apply padded_name_lookup, Hi.
    + rewrite lookup_app_r by (rewrite length_padded_name; lia).
      rewrite length_padded_name.
      rewrite lookup_app_l by (rewrite length_padded_name; lia).
      replace (128 + i - 128)%nat with i by lia.
      apply padded_name_lookup, Hi.
  - rewrite lookup_app_l by (rewrite length_padded_name; lia).
    apply padded_name_terminated.
  - rewrite lookup_app_r by (rewrite length_padded_name; lia).
    rewrite length_padded_name.
    rewrite lookup_app_l by (rewrite length_padded_name; lia).
    apply padded_name_terminated.
  - rewrite lookup_app_r by (rewrite length_padded_name; lia).
    rewrite length_padded_name.
    rewrite lookup_app_r by (rewrite length_padded_name; lia).
    rewrite length_padded_name. reflexivity.
Qed.

Lemma init_struct_layout_witness :
  init_struct [x64; x77] [x64] !! 1%nat = Some x77 /\
  init_struct [x64; x77] [x64] !! 129%nat = Some x00.
Proof.
  destruct (init_struct_layout [x64; x77] [x64]) as (_ & _ & Hnames & _).
  destruct (Hnames 1%nat ltac:(lia)) as [Hdriver Hdevice].
  split; [exact Hdriver | exact Hdevice].
Defined.

(** ** [ep_write] and [ep_read] *)

Lemma pack_H_Some z : 0 <= z < 65536 -> pack_H z = Some (pack_u16 z).
Proof.
  intros H. unfold pack_H.
  destruct (0 <=? z) eqn:E1; [|apply Z.leb_gt in E1; lia].
  destruct (z <? 65536) eqn:E2; [|apply Z.ltb_ge in E2; lia].
  reflexivity.
Qed.

Lemma pack_H_None z : ~ 0 <= z < 65536 -> pack_H z = None.
Proof.
  intros H. unfold pack_H.
  destruct (0 <=? z) eqn:E1; [|reflexivity].
  destruct (z <? 65536) eqn:E2; [|reflexivity].
  apply Z.leb_le in E1. apply Z.ltb_lt in E2. lia.
Qed.

Lemma pack_I_Some z : 0 <= z < 4294967296 -> pack_I z = Some (pack_u32 z).
Proof.
  intros H. unfold pack_I.
  destruct (0 <=? z) eqn:E1; [|apply Z.leb_gt in E1; lia].
  destruct (z <? 4294967296) eqn:E2; [|apply Z.ltb_ge in E2; lia].
  reflexivity.
Qed.

(** X3. The buffer that [ep_write] hands to the ioctl, for a handle
    that fits 16 bits and data whose length fits 32 bits: 8 bytes of
    header and the data.  Read back as
    [struct usb_raw_ep_io], little-endian, the header gives the handle,
    flags 0 and the length of the data, and the data follows it
    unchanged. *)
Theorem ep_io_packet_layout ep_num data :
  0 <= ep_num < 65536 ->
  Z.of_nat (length data) < 4294967296 ->
  exists buffer,
    ep_io_packet ep_num data = Some buffer /\
    length buffer = (8 + length data)%nat /\
    le_uint (slice 0 2 buffer) = ep_num /\
    le_uint (slice 2 4 buffer) = 0 /\
    le_uint (slice 4 8 buffer) = Z.of_nat (length data) /\
    drop 8 buffer = data.
Proof.
  intros Hep Hlen. unfold ep_io_packet.
  rewrite (pack_H_Some ep_num Hep), (pack_H_Some 0) by lia.
  rewrite pack_I_Some by lia.
  eexists. split; [reflexivity|].
  split; [reflexivity|].
  split; [exact (le_uint_pack_u16 ep_num Hep)|].
  split; [reflexivity|].
  split; [|reflexivity].
  apply (le_uint_pack_u32 (Z.of_nat (length data))). lia.
Qed.

Lemma ep_io_packet_layout_witness :
  exists buffer,
    ep_io_packet 3 [xde; xad; xbe; xef] = Some buffer /\
    le_uint (slice 0 2 buffer) = 3 /\
    drop 8 buffer = [xde; xad; xbe; xef].
Proof.
  destruct (ep_io_packet_layout 3 [xde; xad; xbe; xef])
    as (buffer & Hb & _ & Hep & _ & _ & Hdata); [lia | cbn; lia |].
  exists buffer. auto.
Defined.

Lemma ep_read_length_le ioctl ep_num len data :
  ep_read ioctl ep_num len = Return data ->
  (length data <= len)%nat.
Proof.
  unfold ep_read.
  destruct (pack_H ep_num) as [ep|] eqn:Eep; [|discriminate].
  destruct (pack_H 0) as [flags|] eqn:Eflags; [|discriminate].
  destruct (pack_I (Z.of_nat len)) as [l|] eqn:El; [|discriminate].
  assert (Hbuf : length (ep ++ flags ++ l ++ replicate len x00)
                 = (8 + len)%nat).
  { unfold pack_H in Eep, Eflags. unfold pack_I in El.
    destruct (_ && _) in Eep; [|discriminate].
    destruct (_ && _) in Eflags; [|discriminate].
    destruct (_ && _) in El; [|discriminate].
    injection Eep as <-. injection Eflags as <-. injection El as <-.
    rewrite !length_app, length_replicate. reflexivity. }
  destruct (ioctl _) as [[result kernel]|].
  - destruct (0 <? result); intros [= <-]; unfold slice;
      rewrite length_take, length_drop, length_ioctl_into, Hbuf; lia.
  - intros [= <-]. cbn. lia.
Qed.

(** X4. [ep_read] never returns more bytes than the length it was asked
    for, whatever the ioctl returns and whatever length the kernel wrote
    into the header. *)
Theorem ep_read_bounded ioctl ep_num len data :
  ep_read ioctl ep_num len = Return data ->
  (length data <= len)%nat.
Proof. apply ep_read_length_le. Qed.

Lemma ep_read_bounded_witness :
  (length [x41; x42] <= 2)%nat.
Proof.
  apply (ep_read_bounded
           (fun _ => Some (5, [x00; x00; x00; x00; x05; x00; x00; x00;
                               x41; x42; x43; x44; x45]))
           1 2%nat [x41; x42]).
  reflexivity.
Defined.

(** X5. When the EP_ENABLE ioctl fails, [ep_enable] returns the handle
    -1; with that handle both [ep_write] and [ep_read] raise
    [struct.error] when they pack the header, whatever the ioctl would
    answer. *)
Theorem failed_ep_enable_handle_unusable env descriptor s ep_num :
  ioctl_ep_enable env (trace s) descriptor = None ->
  (ep_enable env descriptor s).1 = Return ep_num ->
  ep_num = -1 /\
  (forall ioctl data, ep_write ioctl ep_num data = Raise StructError) /\
  (forall ioctl len, ep_read ioctl ep_num len = Raise StructError).
Proof.
  intros Hfail Hnum. unfold ep_enable in Hnum. cbn [fst] in Hnum.
  rewrite Hfail in Hnum. injection Hnum as <-.
  split; [reflexivity|]. split.
  - intros ioctl data. unfold ep_write, ep_io_packet.
    rewrite (pack_H_None (-1)) by lia. reflexivity.
  - intros ioctl len. unfold ep_read.
    rewrite (pack_H_None (-1)) by lia. reflexivity.
Qed.

Lemma failed_ep_enable_handle_unusable_witness :
  ep_write (fun _ => Some 4) (-1) [xde; xad; xbe; xef] = Raise StructError.
Proof.
  refine (proj1 (proj2 (failed_ep_enable_handle_unusable
                          no_endpoint_env [] printer_state (-1) _ _)) _ _);
    reflexivity.
Defined.

(** ** [fetch_event] and the setup packet *)

Lemma ioctl_into_short buf kernel :
  (length kernel <= length buf)%nat ->
  ioctl_into buf kernel = kernel ++ drop (length kernel) buf.
Proof.
  intros H. unfold ioctl_into. apply take_ge.
  rewrite length_app, length_drop. lia.
Qed.

(** X6. [fetch_event] gives back what the kernel delivered: for an
    event type that fits 32 bits and at most 4096 bytes of data, the
    structure [type, length, data] written by EVENT_FETCH is read as
    that type and exactly that data. *)
Theorem fetch_event_raw_event event_type data :
  0 <= event_type < 4294967296 ->
  (length data <= 4096)%nat ->
  fetch_event (Some (raw_event event_type data)) = (event_type, data).
Proof.
  intros Ht Hlen. unfold fetch_event, header_length.
  assert (Hk : length (raw_event event_type data) = (8 + length data)%nat)
    by reflexivity.
  rewrite ioctl_into_short
    by (rewrite Hk, length_fresh_event_buffer; unfold event_buffer_size; lia).
  rewrite Hk.
  assert (H1 : slice 0 4 (raw_event event_type data
                          ++ drop (8 + length data) fresh_event_buffer)
               = pack_u32 event_type) by reflexivity.
  assert (H2 : slice 4 8 (raw_event event_type data
                          ++ drop (8 + length data) fresh_event_buffer)
               = pack_u32 (Z.of_nat (length data))) by reflexivity.
  rewrite H1, H2.
  rewrite !le_uint_pack_u32 by lia.
  unfold guarded_length.
  destruct (4096 <? Z.of_nat (length data)) eqn:E;
    [apply Z.ltb_lt in E; lia|].
  f_equal. unfold slice.
  rewrite Nat2Z.id.
  replace (8 + length data - 8)%nat with (length data) by lia.
  change (drop 8 (raw_event event_type data
                  ++ drop (8 + length data) fresh_event_buffer))
    with (data ++ drop (8 + length data) fresh_event_buffer).
  apply take_app_length.
Qed.

Lemma fetch_event_raw_event_witness :
  fetch_event (Some (raw_event 2 SET_ADDRESS_5)) = (2, SET_ADDRESS_5).
Proof.
  apply fetch_event_raw_event; [lia | cbn; lia].
Defined.

(** X7. Decoding a setup packet.  With fewer than 8 bytes there is no
    packet ([struct.error]).  With 8 bytes or more there is one, read
    from the first 8 bytes only; [bmRequestType] and [bRequest] are
    below 256 and [wValue], [wIndex] and [wLength] below 65536, none
    negative. *)
Theorem unpack_setup_cases ctrl_data :
  if (length ctrl_data <? 8)%nat then unpack_setup ctrl_data = None
  else exists p,
    unpack_setup ctrl_data = Some p /\
    unpack_setup (take 8 ctrl_data) = Some p /\
    0 <= bmRequestType p < 256 /\ 0 <= bRequest p < 256 /\
    0 <= wValue p < 65536 /\ 0 <= wIndex p < 65536 /\
    0 <= wLength p < 65536.
Proof.
  destruct (length ctrl_data <? 8)%nat eqn:E.
  - apply Nat.ltb_lt in E.
    destruct (unpack_setup ctrl_data) as [p|] eqn:Hp; [|reflexivity].
    apply unpack_setup_length in Hp. lia.
  - apply Nat.ltb_ge in E.
    assert (Hl : length (take 8 ctrl_data) = 8%nat)
      by (rewrite length_take; lia).
    unfold unpack_setup. rewrite take_take. cbn [Nat.min].
    destruct (take 8 ctrl_data)
      as [|b0 [|b1 [|b2 [|b3 [|b4 [|b5 [|b6 [|b7 [|b8 l]]]]]]]]];
      try discriminate Hl.
    eexists. split; [reflexivity|]. split; [reflexivity|].
    cbn [bmRequestType bRequest wValue wIndex wLength le_uint].
    pose proof (u8_range b0). pose proof (u8_range b1).
    pose proof (u8_range b2). pose proof (u8_range b3).
    pose proof (u8_range b4). pose proof (u8_range b5).
    pose proof (u8_range b6). pose proof (u8_range b7).
    lia.
Qed.

(** ** The descriptor cache is read-only in the loop *)

Lemma same_cache_refl s : same_cache s s.
Proof. repeat split. Qed.

Lemma same_cache_trans s1 s2 s3 :
  same_cache s1 s2 -> same_cache s2 s3 -> same_cache s1 s3.
Proof.
  intros (H1 & H2 & H3 & H4) (H1' & H2' & H3' & H4').
  repeat split; congruence.
Qed.

Lemma keeps_cache_ret {A} (a : A) : keeps_cache (ret a).
Proof. intros s. apply same_cache_refl. Qed.

Lemma keeps_cache_raise {A} e : keeps_cache (@raise A e).
Proof. intros s. apply same_cache_refl. Qed.

Lemma keeps_cache_bind {A B} (m : M A) (k : A -> M B) :
  keeps_cache m -> (forall a, keeps_cache (k a)) -> keeps_cache (bind m k).
Proof.
  intros Hm Hk s. unfold bind. specialize (Hm s).
  destruct (m s) as [[a|e] s1]; cbn [snd] in *; [|exact Hm].
  eapply same_cache_trans; [exact Hm | apply Hk].
Qed.

Lemma keeps_cache_try_except {A} (m : M A) (h : exn -> M A) :
  keeps_cache m -> (forall e, keeps_cache (h e)) ->
  keeps_cache (try_except m h).
Proof.
  intros Hm Hh s. unfold try_except. specialize (Hm s).
  destruct (m s) as [[a|e] s1]; cbn [snd] in *; [exact Hm|].
  eapply same_cache_trans; [exact Hm | apply Hh].
Qed.

Lemma keeps_cache_get {A} (k : state -> M A) :
  (forall s0, keeps_cache (k s0)) -> keeps_cache (bind get k).
Proof. intros Hk s. unfold bind, get. apply Hk. Qed.

Lemma keeps_cache_modify f :
  (forall s, same_cache s (f s)) -> keeps_cache (modify f).
Proof. intros Hf s. apply Hf. Qed.

Lemma keeps_cache_for_each {A} (l : list A) body :
  (forall x, keeps_cache (body x)) -> keeps_cache (for_each l body).
Proof.
  intros Hb. induction l as [|x l IH]; [apply keeps_cache_ret|].
  cbn [for_each]. apply keeps_cache_bind; [apply Hb | intros _; exact IH].
Qed.

Lemma only_logs_keeps_cache {A} P (m : M A) : only_logs P m -> keeps_cache m.
Proof.
  intros Hm s. destruct (Hm s) as (o & t & -> & _). repeat split.
Qed.

Lemma keeps_cache_effect {A} e (f : state -> outcome A) :
  keeps_cache (fun s => (f s, log_effect e s)).
Proof. intros s. repeat split. Qed.

Ltac keeps_cache_step :=
  match goal with
  | |- keeps_cache (ret _) => apply keeps_cache_ret
  | |- keeps_cache (raise _) => apply keeps_cache_raise
  | |- keeps_cache (bind get _) => apply keeps_cache_get; intros ?
  | |- keeps_cache (bind _ _) => apply keeps_cache_bind; [|intros ?]
  | |- keeps_cache (try_except _ _) =>
      apply keeps_cache_try_except; [|intros ?]
  | |- keeps_cache (for_each _ _) => apply keeps_cache_for_each; intros ?
  | |- keeps_cache (modify _) =>
      apply keeps_cache_modify; intros ?; repeat split
  | |- keeps_cache (if ?c then _ else _) => destruct c
  | |- keeps_cache (match ?c with Some _ => _ | None => _ end) => destruct c
  | |- keeps_cache (match ?c with [] => _ | _ :: _ => _ end) => destruct c
  | |- keeps_cache (let '(_, _) := ?c in _) => destruct c
  | |- keeps_cache (ep0_read _ _) => apply keeps_cache_effect
  | |- keeps_cache (ep0_write _ _) => apply keeps_cache_effect
  | |- keeps_cache (ep0_stall _) => apply keeps_cache_effect
  | |- keeps_cache (ep_enable _ _) => apply keeps_cache_effect
  | |- keeps_cache (configure_gadget _) => apply keeps_cache_effect
  | |- keeps_cache (usb_set_configuration _ _) => apply keeps_cache_effect
  | |- keeps_cache (usb_reset _) => apply keeps_cache_effect
  | |- keeps_cache (usb_ctrl_transfer_in _ _) => apply keeps_cache_effect
  | |- keeps_cache (usb_ctrl_transfer_out _ _ _) => apply keeps_cache_effect
  | |- keeps_cache (is_alive _ _) => intros ?; apply same_cache_refl
  | |- keeps_cache (thread_start _) => unfold thread_start
  | |- keeps_cache (thread_join _) => unfold thread_join
  | |- keeps_cache (forward_in _ _) => unfold forward_in
  | |- keeps_cache (join_thread _ _) => unfold join_thread
  | |- keeps_cache (setup_endpoint _ _) => unfold setup_endpoint
  | |- keeps_cache (setup_endpoints _ _) => unfold setup_endpoints
  | |- keeps_cache (cleanup_endpoints _) => unfold cleanup_endpoints
  | |- keeps_cache (cleanup_if_configured _) => unfold cleanup_if_configured
  | |- keeps_cache (handle_control_request _ _) =>
      unfold handle_control_request
  | |- keeps_cache (handle_control_event _ _) => unfold handle_control_event
  end.

Lemma ep0_loop_body_keeps_cache env raw : keeps_cache (ep0_loop_body env raw).
Proof.
  unfold ep0_loop_body. repeat keeps_cache_step.
Qed.

Lemma ep0_loop_body_returns env raw s :
  (ep0_loop_body env raw s).1 = Return tt.
Proof.
  unfold ep0_loop_body, try_except, ret.
  destruct (_ s) as [[[]|e] s1]; reflexivity.
Qed.

(** X8. No run of [ep0_loop] raises or changes the cached descriptors:
    from any state and against any environment, whatever the events and
    whatever fails on the way, the loop goes through all the events and
    leaves [device_descriptor], [config_descriptors],
    [string_descriptors] and [running] as they were. *)
Theorem ep0_loop_keeps_cache env events s :
  (ep0_loop env events s).1 = Return tt /\
  same_cache s (exec (ep0_loop env events) s).
Proof.
  unfold ep0_loop, exec, bind at 1 2, modify. cbn [fst snd].
  assert (Hs : same_cache s (set_configured false s)) by (repeat split).
  revert Hs. generalize (set_configured false s) as s0.
  induction events as [|raw events IH]; intros s0 Hs0.
  - split; [reflexivity | exact Hs0].
  - cbn [ep0_events]. unfold bind at 1 3, get.
    destruct (running s0) eqn:Hrun; [|split; [reflexivity | exact Hs0]].
    unfold bind.
    pose proof (ep0_loop_body_returns env raw s0) as Hret.
    pose proof (ep0_loop_body_keeps_cache env raw s0) as Hkeep.
    destruct (ep0_loop_body env raw s0) as [o s1]. cbn [fst snd] in *.
    subst o. apply IH. eapply same_cache_trans; eassumption.
Qed.

(** ** Requests that the loop answers itself *)

(** X9. A standard GET_STATUS with direction IN is answered by the loop
    itself: one EP0 write of the two bytes [00 00], whatever the
    recipient in [wIndex] and the requested [wLength], and nothing goes
    upstream; the state is otherwise unchanged. *)
Theorem get_status_answered_locally env raw data p s :
  fetch_event raw = (USB_RAW_EVENT_CONTROL, data) ->
  unpack_setup data = Some p ->
  is_standard p = true ->
  bRequest p = USB_REQ_GET_STATUS ->
  is_dir_in p = true ->
  exec (ep0_loop_body env raw) s = log_effect (GadgetEp0Write [x00; x00]) s.
Proof.
  intros Hev Hp Hstd Hreq Hdir.
  rewrite (ep0_loop_body_control env raw data s Hev
             (unpack_setup_length _ _ Hp)).
  unfold exec, handle_control_event. rewrite Hp.
  unfold bind at 1, get. rewrite Hstd, Hreq, Hdir.
  change (USB_REQ_GET_STATUS =? USB_REQ_SET_ADDRESS) with false.
  change (USB_REQ_GET_STATUS =? USB_REQ_GET_STATUS) with true.
  reflexivity.
Qed.

Lemma get_status_answered_locally_witness :
  trace (exec (ep0_loop_body failing_env
                 (control_event [x82; x00; x00; x00; x81; x00; x02; x00]))
              printer_state)
  = [GadgetEp0Write [x00; x00]].
Proof.
  assert (Hev : fetch_event
                  (control_event [x82; x00; x00; x00; x81; x00; x02; x00])
                = (USB_RAW_EVENT_CONTROL,
                   [x82; x00; x00; x00; x81; x00; x02; x00]))
    by (vm_compute; reflexivity).
  rewrite (get_status_answered_locally failing_env _ _ (Setup 130 0 0 129 2)
             printer_state Hev eq_refl eq_refl eq_refl eq_refl).
  reflexivity.
Defined.

(** X10. In any run of the loop from a new proxy, a standard
    GET_CONFIGURATION with direction IN is answered by one EP0 write of
    one byte: 1 when [device_configured] is set, 0 when it is not; the
    value that SET_CONFIGURATION selected plays no part. *)
Theorem get_configuration_answer env events dd cds sds raw data p :
  let s := exec (ep0_loop env events) (init_state dd cds sds) in
  fetch_event raw = (USB_RAW_EVENT_CONTROL, data) ->
  unpack_setup data = Some p ->
  is_standard p = true ->
  bRequest p = USB_REQ_GET_CONFIGURATION ->
  is_dir_in p = true ->
  exec (ep0_loop_body env raw) s
  = log_effect (GadgetEp0Write [if device_configured s then x01 else x00]) s.
Proof.
  intros s Hev Hp Hstd Hreq Hdir.
  assert (Hinv : loop_invariant s) by apply ep0_loop_step.
  clearbody s. destruct Hinv as (Hc & _).
  rewrite (ep0_loop_body_control env raw data s Hev
             (unpack_setup_length _ _ Hp)).
  unfold exec, handle_control_event. rewrite Hp.
  unfold bind at 1, get. rewrite Hstd, Hreq, Hdir, Hc.
  change (USB_REQ_GET_CONFIGURATION =? USB_REQ_SET_ADDRESS) with false.
  change (USB_REQ_GET_CONFIGURATION =? USB_REQ_GET_STATUS) with false.
  change (USB_REQ_GET_CONFIGURATION =? USB_REQ_GET_CONFIGURATION) with true.
  reflexivity.
Qed.

Lemma get_configuration_answer_witness :
  trace (exec (ep0_loop_body printer_env
                 (control_event [x80; x08; x00; x00; x00; x00; x01; x00]))
           (exec (ep0_loop printer_env [control_event SET_CONFIGURATION_0])
                 (init_state None ∅ ∅)))
  = [UpSetConfiguration 0; GadgetConfigure; GadgetEp0Read 0;
     GadgetEp0Write [x01]].
Proof.
  assert (Hev : fetch_event
                  (control_event [x80; x08; x00; x00; x00; x00; x01; x00])
                = (USB_RAW_EVENT_CONTROL,
                   [x80; x08; x00; x00; x00; x00; x01; x00]))
    by (vm_compute; reflexivity).
  rewrite (get_configuration_answer printer_env
             [control_event SET_CONFIGURATION_0] None ∅ ∅ _ _
             (Setup 128 8 0 0 1) Hev eq_refl eq_refl eq_refl eq_refl).
  vm_compute. reflexivity.
Defined.

(** X11. A CONTROL event with fewer than 8 bytes of data: the loop stalls
    EP0 once and does nothing else, whether or not the stall ioctl
    fails. *)
Theorem short_control_event_stalled env raw data s :
  fetch_event raw = (USB_RAW_EVENT_CONTROL, data) ->
  (length data < 8)%nat ->
  exec (ep0_loop_body env raw) s = log_effect GadgetEp0Stall s.
Proof.
  intros Hev Hlen. unfold ep0_loop_body.
  rewrite exec_try_except_ret. rewrite Hev.
  change (USB_RAW_EVENT_CONTROL =? 0) with false.
  change (USB_RAW_EVENT_CONTROL =? USB_RAW_EVENT_RESET) with false.
  change (USB_RAW_EVENT_CONTROL =? USB_RAW_EVENT_DISCONNECT) with false.
  change (USB_RAW_EVENT_CONTROL =? USB_RAW_EVENT_CONTROL) with true.
  cbn [orb negb].
  apply Nat.ltb_lt in Hlen. rewrite Hlen. reflexivity.
Qed.

Lemma short_control_event_stalled_witness :
  trace (exec (ep0_loop_body no_endpoint_env
                 (Some [x02; x00; x00; x00; x03; x00; x00; x00;
                        x80; x06; x00]))
              printer_state)
  = [GadgetEp0Stall].
Proof.
  rewrite (short_control_event_stalled no_endpoint_env _ [x80; x06; x00]
             printer_state).
  - reflexivity.
  - vm_compute. reflexivity.
  - cbn. lia.
Defined.

(** X12. An event that is neither CONNECT, CONTROL, RESET nor DISCONNECT
    changes nothing and has no effect: SUSPEND, RESUME, an unknown
    type, and the type 0 that [fetch_event] returns when the ioctl
    failed. *)
Theorem informational_event_ignored env raw s :
  let event_type := (fetch_event raw).1 in
  event_type <> USB_RAW_EVENT_CONNECT ->
  event_type <> USB_RAW_EVENT_CONTROL ->
  event_type <> USB_RAW_EVENT_RESET ->
  event_type <> USB_RAW_EVENT_DISCONNECT ->
  ep0_loop_body env raw s = (Return tt, s).
Proof.
  intros event_type H1 H2 H5 H6. subst event_type.
  unfold ep0_loop_body.
  destruct (fetch_event raw) as [event_type data]. cbn [fst] in *.
  apply Z.eqb_neq in H1, H2, H5, H6. rewrite H1, H2, H5, H6.
  cbn [orb negb].
  destruct (event_type =? 0); reflexivity.
Qed.

Lemma informational_event_ignored_witness :
  ep0_loop_body failing_env None printer_state = (Return tt, printer_state)
  /\ ep0_loop_body failing_env (plain_event x03) printer_state
     = (Return tt, printer_state).
Proof.
  split.
  - apply informational_event_ignored; vm_compute; discriminate.
  - apply informational_event_ignored; vm_compute; discriminate.
Defined.

(** ** The configuration life cycle *)

(** X13. In any run of the loop from a new proxy: the local [configured]
    and the field [device_configured] agree; there are endpoint threads
    only while the proxy is configured; and there are queues only while
    there are threads. *)
Theorem ep0_loop_invariant env events dd cds sds :
  let s := exec (ep0_loop env events) (init_state dd cds sds) in
  configured s = device_configured s /\
  (device_configured s = false -> endpoint_threads s = []) /\
  (endpoint_threads s = [] -> endpoint_queues s = ∅).
Proof.
  intros s. exact (proj1 (ep0_loop_step env events dd cds sds)).
Qed.

Lemma ep0_loop_invariant_witness :
  endpoint_threads
    (exec (ep0_loop printer_env
             [control_event SET_CONFIGURATION_1; plain_event x06])
          (init_state None ∅ ∅)) = [].
Proof.
  apply (ep0_loop_invariant printer_env
           [control_event SET_CONFIGURATION_1; plain_event x06] None ∅ ∅).
  vm_compute. reflexivity.
Defined.

(** X14. A CONNECT event in any run of the loop sets [host_connected];
    if the proxy was configured it tears the endpoints down as a RESET
    does, and afterwards [device_configured] is false and no thread or
    queue is left; but it does not reset the upstream device: the only
    effects are those of the teardown. *)
Theorem connect_event_teardown env events dd cds sds raw :
  let s := exec (ep0_loop env events) (init_state dd cds sds) in
  (fetch_event raw).1 = USB_RAW_EVENT_CONNECT ->
  let s' := exec (ep0_loop_body env raw) s in
  host_connected s' = true /\
  device_configured s' = false /\
  configured s' = false /\
  endpoint_threads s' = [] /\
  endpoint_queues s' = ∅ /\
  exists joined,
    joined `sublist_of` endpoint_threads s /\
    trace s' = trace s ++ teardown_effects (endpoint_threads s) joined.
Proof.
  intros s Hev s'.
  assert (Hinv : loop_invariant s) by apply ep0_loop_step.
  subst s'. clearbody s.
  unfold ep0_loop_body. rewrite exec_try_except_ret.
  destruct (fetch_event raw) as [event_type data]. cbn [fst] in Hev.
  subst event_type.
  change (USB_RAW_EVENT_CONNECT =? 0) with false.
  change (USB_RAW_EVENT_CONNECT =? USB_RAW_EVENT_RESET) with false.
  change (USB_RAW_EVENT_CONNECT =? USB_RAW_EVENT_DISCONNECT) with false.
  change (USB_RAW_EVENT_CONNECT =? USB_RAW_EVENT_CONTROL) with false.
  change (USB_RAW_EVENT_CONNECT =? USB_RAW_EVENT_CONNECT) with true.
  cbn [orb negb].
  rewrite (exec_bind_return (modify (set_host_connected true)) _ s tt
             (set_host_connected true s) eq_refl).
  destruct (cleanup_if_configured_run env (set_host_connected true s) Hinv)
    as (joined & Hsub & _ & Hrun).
  unfold exec. rewrite Hrun. cbn [snd]. state_simpl.
  repeat (split; [reflexivity|]).
  exists joined. split; [exact Hsub | reflexivity].
Qed.

Lemma connect_event_teardown_witness :
  let s := exec (ep0_loop printer_env [control_event SET_CONFIGURATION_1])
                (init_state None ∅ ∅) in
  let s' := exec (ep0_loop_body printer_env (plain_event x01)) s in
  host_connected s' = true /\ device_configured s' = false.
Proof.
  intros s s'.
  destruct (connect_event_teardown printer_env
              [control_event SET_CONFIGURATION_1] None ∅ ∅ (plain_event x01))
    as (H1 & H2 & _).
  - vm_compute. reflexivity.
  - split; assumption.
Defined.

(** ** [handle_control_request] *)

Ltac control_effect_step :=
  match goal with
  | |- only_logs _ (ret _) => apply only_logs_ret
  | |- only_logs _ (raise _) => apply only_logs_raise
  | |- only_logs _ (bind get _) => apply only_logs_get; intros ?
  | |- only_logs _ (bind _ _) => apply only_logs_bind; [|intros ?]
  | |- only_logs _ (try_except _ _) =>
      apply only_logs_try_except; [|intros ?]
  | |- only_logs _ (if ?c then _ else _) => destruct c
  | |- only_logs _ (match ?c with Some _ => _ | None => _ end) => destruct c
  | |- only_logs _ (forward_in _ _) => unfold forward_in
  | |- only_logs _ _ => apply only_logs_effect; first [exact I | reflexivity]
  end.

Lemma handle_control_request_control_effects env ctrl_data p :
  unpack_setup ctrl_data = Some p ->
  only_logs (control_effect p) (handle_control_request env ctrl_data).
Proof.
  intros Hp. unfold handle_control_request. rewrite Hp.
  repeat control_effect_step.
Qed.

(** The effects that a computation added to the trace of [s]. *)
Lemma log_effects_added t s :
  drop (length (trace s)) (trace (log_effects t s)) = t.
Proof. cbn. apply drop_app_length. Qed.

Lemma handle_control_request_answers env ctrl_data p s :
  unpack_setup ctrl_data = Some p ->
  existsb is_ep0_effect
    (drop (length (trace s))
          (trace (exec (handle_control_request env ctrl_data) s))) = true.
Proof.
  intros Hp. unfold exec, handle_control_request. rewrite Hp.
  unfold forward_in.
  unfold try_except, bind, ret, raise, get, ep0_write, ep0_read,
    ep0_stall, usb_ctrl_transfer_in, usb_ctrl_transfer_out.
  repeat match goal with
         | |- context [if ?c then _ else _] => destruct c
         | |- context [match ?c with Some _ => _ | None => _ end] =>
             destruct c
         end;
    cbn [fst snd]; state_simpl; rewrite <- ?app_assoc;
    rewrite drop_app_length; reflexivity.
Qed.

Lemma handle_control_request_confined env ctrl_data p s :
  unpack_setup ctrl_data = Some p ->
  exists o t,
    handle_control_request env ctrl_data s = (o, log_effects t s) /\
    Forall (control_effect p) t /\
    existsb is_ep0_effect t = true.
Proof.
  intros Hp.
  destruct (handle_control_request_control_effects env ctrl_data p Hp s)
    as (o & t & Hrun & Ht).
  exists o, t. split; [exact Hrun|]. split; [exact Ht|].
  pose proof (handle_control_request_answers env ctrl_data p s Hp) as Hans.
  unfold exec in Hans. rewrite Hrun in Hans. cbn [snd] in Hans.
  rewrite log_effects_added in Hans. exact Hans.
Qed.

(** X15. Whatever the request and whatever fails,
    [handle_control_request] changes nothing in the proxy but the
    trace; its effects are reads, writes and stalls of EP0 and upstream
    control transfers that carry the request it was given; and at least
    one of them is on EP0: every request it handles gets a data stage,
    an ACK or a stall. *)
Theorem handle_control_request_always_answers env ctrl_data p s :
  unpack_setup ctrl_data = Some p ->
  exists o t,
    handle_control_request env ctrl_data s = (o, log_effects t s) /\
    Forall (control_effect p) t /\
    existsb is_ep0_effect t = true.
Proof. apply handle_control_request_confined. Qed.

Lemma handle_control_request_always_answers_witness :
  exists o t,
    handle_control_request no_endpoint_env vendor_out_0 printer_state
    = (o, log_effects t printer_state) /\
    existsb is_ep0_effect t = true.
Proof.
  destruct (handle_control_request_always_answers no_endpoint_env
              vendor_out_0 (Setup 64 1 0 0 0) printer_state eq_refl)
    as (o & t & Hrun & _ & Hans).
  exists o, t. split; assumption.
Defined.

(** X16. A standard SET_CONFIGURATION that arrives while the proxy is
    configured does not set the endpoints up again: the loop hands it to
    [handle_control_request], so the state keeps its threads and flags,
    and the only effects are on EP0 and upstream control transfers that
    carry the request itself. *)
Theorem set_configuration_when_configured env raw data p s :
  fetch_event raw = (USB_RAW_EVENT_CONTROL, data) ->
  unpack_setup data = Some p ->
  is_standard p = true ->
  bRequest p = USB_REQ_SET_CONFIGURATION ->
  configured s = true ->
  exists t,
    exec (ep0_loop_body env raw) s = log_effects t s /\
    Forall (control_effect p) t /\
    existsb is_ep0_effect t = true.
Proof.
  intros Hev Hp Hstd Hreq Hcfg.
  rewrite (ep0_loop_body_control env raw data s Hev
             (unpack_setup_length _ _ Hp)).
  unfold exec, handle_control_event. rewrite Hp.
  unfold bind at 1, get. rewrite Hstd, Hreq, Hcfg.
  change (USB_REQ_SET_CONFIGURATION =? USB_REQ_SET_ADDRESS) with false.
  change (USB_REQ_SET_CONFIGURATION =? USB_REQ_GET_STATUS) with false.
  change (USB_REQ_SET_CONFIGURATION =? USB_REQ_GET_CONFIGURATION) with false.
  change (USB_REQ_SET_CONFIGURATION =? USB_REQ_SET_CONFIGURATION) with true.
  cbn [andb negb].
  destruct (handle_control_request_confined env data p s Hp)
    as (o & t & -> & Ht & Hans).
  exists t. auto.
Qed.

Lemma set_configuration_when_configured_witness :
  let s := exec (ep0_loop printer_env [control_event SET_CONFIGURATION_1])
                (init_state None ∅ ∅) in
  exists t,
    exec (ep0_loop_body printer_env (control_event SET_CONFIGURATION_1)) s
    = log_effects t s /\
    existsb is_ep0_effect t = true.
Proof.
  intros s.
  assert (Hev : fetch_event (control_event SET_CONFIGURATION_1)
                = (USB_RAW_EVENT_CONTROL, SET_CONFIGURATION_1))
    by (vm_compute; reflexivity).
  destruct (set_configuration_when_configured printer_env
              (control_event SET_CONFIGURATION_1) SET_CONFIGURATION_1
              (Setup 0 9 1 0 0) s Hev eq_refl eq_refl eq_refl)
    as (t & Hrun & _ & Hans).
  - vm_compute. reflexivity.
  - exists t. split; assumption.
Defined.

(** X17. An IN request that [handle_control_request] neither answers
    itself (standard GET_STATUS) nor finds in the cache is passed
    through: one upstream control transfer with the same five fields;
    then its data written to EP0 as it came, or EP0 stalled when the
    transfer raised. *)
Theorem in_request_passed_through env ctrl_data p s :
  unpack_setup ctrl_data = Some p ->
  is_dir_in p = true ->
  is_standard p && (bRequest p =? USB_REQ_GET_STATUS) = false ->
  (is_get_descriptor p = true -> cache_entry s p = None) ->
  trace (exec (handle_control_request env ctrl_data) s)
  = trace s ++ UpCtrlTransferIn p ::
      match dev_ctrl_transfer_in env (trace s) p with
      | Some data => [GadgetEp0Write data]
      | None => [GadgetEp0Stall]
      end.
Proof.
  intros Hp Hdir Hstatus Hmiss.
  destruct (is_get_descriptor p) eqn:Hgd.
  - unfold exec.
    rewrite (get_descriptor_uncached env _ _ _ Hp Hgd (Hmiss eq_refl)).
    exact (forward_in_trace env p s).
  - rewrite <- (forward_in_trace env p s).
    unfold exec, handle_control_request. rewrite Hp.
    unfold is_get_descriptor in Hgd. rewrite Hdir, andb_true_r in Hgd.
    rewrite Hstatus, Hdir, Hgd. reflexivity.
Qed.

Lemma in_request_passed_through_witness :
  trace (exec (handle_control_request printer_env
                 [xc0; x10; x01; x00; x00; x00; x10; x00]) printer_state)
  = [UpCtrlTransferIn (Setup 192 16 1 0 16);
     GadgetEp0Write printer_device_descriptor].
Proof.
  apply (in_request_passed_through printer_env
           [xc0; x10; x01; x00; x00; x00; x10; x00] (Setup 192 16 1 0 16)
           printer_state eq_refl eq_refl eq_refl).
  discriminate.
Defined.

(** ** Setting endpoints up and tearing them down *)

(** X18. [cleanup_endpoints] never raises, leaves no endpoint thread,
    and is idempotent: run again on the state it produced, it does
    nothing at all. *)
Theorem cleanup_endpoints_idempotent env s :
  let s1 := exec (cleanup_endpoints env) s in
  (cleanup_endpoints env s).1 = Return tt /\
  endpoint_threads s1 = [] /\
  cleanup_endpoints env s1 = (Return tt, s1).
Proof.
  intros s1. subst s1. unfold exec.
  destruct (cleanup_endpoints_run env s) as (joined & _ & _ & Hrun).
  rewrite Hrun. cbn [fst snd].
  split; [reflexivity|].
  assert (Hnil : endpoint_threads
                   match endpoint_threads s with
                   | [] => s
                   | _ :: _ =>
                       State (running s) [] ∅ (device_descriptor s)
                         (config_descriptors s) (string_descriptors s)
                         (host_connected s) (device_configured s) true
                         (configured s)
                         (trace s
                          ++ teardown_effects (endpoint_threads s) joined)
                   end = []).
  { destruct (endpoint_threads s) eqn:E; [exact E | reflexivity]. }
  split; [exact Hnil|].
  match goal with |- cleanup_endpoints env ?s1 = _ =>
    destruct (cleanup_endpoints_run env s1) as (joined' & _ & _ & Hrun');
    rewrite Hrun'; rewrite Hnil; reflexivity
  end.
Qed.

Lemma length_spawned_workers eps ep_nums :
  length ep_nums = length eps ->
  length (spawned_workers eps ep_nums) = (2 * length eps)%nat.
Proof.
  unfold spawned_workers. revert ep_nums.
  induction eps as [|ep eps IH]; intros [|n ns] Hlen;
    try discriminate Hlen; [reflexivity|].
  cbn [zip_with concat length app]. injection Hlen as Hlen.
  rewrite (IH ns Hlen). lia.
Qed.

Lemma length_setup_effects eps ep_nums :
  length ep_nums = length eps ->
  length (setup_effects eps ep_nums) = (3 * length eps)%nat.
Proof.
  unfold setup_effects. revert ep_nums.
  induction eps as [|ep eps IH]; intros [|n ns] Hlen;
    try discriminate Hlen; [reflexivity|].
  cbn [zip_with concat length app endpoint_effects].
  injection Hlen as Hlen. rewrite (IH ns Hlen). lia.
Qed.

(** X19. [setup_endpoints] never raises.  For a configuration value that
    the device has, it starts two threads and has three effects (the
    EP_ENABLE and the two starts) for every endpoint that the
    configuration lists, also when EP_ENABLE fails; it does not touch
    [device_configured].  For a value that no configuration has, or a
    configuration without endpoints, it changes nothing. *)
Theorem setup_endpoints_spawns env config_value s :
  let eps := config_endpoints env config_value in
  let s' := exec (setup_endpoints env config_value) s in
  (setup_endpoints env config_value s).1 = Return tt /\
  length (endpoint_threads s')
  = (length (endpoint_threads s) + 2 * length eps)%nat /\
  length (trace s') = (length (trace s) + 3 * length eps)%nat /\
  (exists ep_nums,
     length ep_nums = length eps /\
     endpoint_threads s'
     = endpoint_threads s ++ spawned_workers eps ep_nums /\
     trace s' = trace s ++ setup_effects eps ep_nums) /\
  device_configured s' = device_configured s /\
  (eps = [] -> s' = s).
Proof.
  intros eps s'. subst s'. unfold exec.
  destruct (setup_endpoints_run env config_value s)
    as (ns & qs & Hlen & Hqs & Hrun).
  cbn zeta in Hlen, Hqs, Hrun. fold eps in Hlen, Hqs, Hrun.
  rewrite Hrun. cbn [fst snd]. state_simpl.
  split; [reflexivity|].
  split; [rewrite length_app, (length_spawned_workers _ _ Hlen); reflexivity|].
  split; [rewrite length_app, (length_setup_effects _ _ Hlen); reflexivity|].
  split; [exists ns; auto|].
  split; [reflexivity|].
  intros Heps. rewrite (Hqs Heps). rewrite Heps in *.
  destruct ns; [|discriminate Hlen].
  destruct s. cbn. rewrite !app_nil_r. reflexivity.
Qed.

Lemma setup_endpoints_spawns_witness :
  exec (setup_endpoints printer_env 7) printer_state = printer_state.
Proof.
  apply (setup_endpoints_spawns printer_env 7 printer_state).
  reflexivity.
Defined.

(** ** [cache_descriptors] *)

Lemma cache_step_refl dev s : cache_step dev s s.
Proof.
  split; [exists []; rewrite app_nil_r; auto|].
  split; [repeat split|]. split; intros i; left; reflexivity.
Qed.

Lemma cache_step_trans dev s1 s2 s3 :
  cache_step dev s1 s2 -> cache_step dev s2 s3 -> cache_step dev s1 s3.
Proof.
  intros ((t1 & Ht1 & HP1) & Hf1 & Hc1 & Hs1)
         ((t2 & Ht2 & HP2) & Hf2 & Hc2 & Hs2).
  split; [|split; [|split]].
  - exists (t1 ++ t2). rewrite Ht2, Ht1, app_assoc.
    split; [reflexivity | apply Forall_app; auto].
  - destruct Hf1 as (?&?&?&?&?&?&?), Hf2 as (?&?&?&?&?&?&?).
    repeat split; congruence.
  - intros i. destruct (Hc2 i) as [E2|R]; [|right; exact R].
    destruct (Hc1 i) as [E1|R]; [left; congruence | right; exact R].
  - intros i. destruct (Hs2 i) as [E2|R]; [|right; exact R].
    destruct (Hs1 i) as [E1|R]; [left; congruence | right; exact R].
Qed.

Lemma caches_ret {A} dev (a : A) : caches dev (ret a).
Proof. intros s. apply cache_step_refl. Qed.

Lemma caches_raise {A} dev e : caches dev (@raise A e).
Proof. intros s. apply cache_step_refl. Qed.

Lemma caches_bind {A B} dev (m : M A) (k : A -> M B) :
  caches dev m -> (forall a, caches dev (k a)) -> caches dev (bind m k).
Proof.
  intros Hm Hk s. unfold bind. specialize (Hm s).
  destruct (m s) as [[a|e] s1]; cbn [snd] in *; [|exact Hm].
  eapply cache_step_trans; [exact Hm | apply Hk].
Qed.

Lemma caches_try_except {A} dev (m : M A) (h : exn -> M A) :
  caches dev m -> (forall e, caches dev (h e)) ->
  caches dev (try_except m h).
Proof.
  intros Hm Hh s. unfold try_except. specialize (Hm s).
  destruct (m s) as [[a|e] s1]; cbn [snd] in *; [exact Hm|].
  eapply cache_step_trans; [exact Hm | apply Hh].
Qed.

Lemma caches_for_each {A} dev (l : list A) body :
  (forall x, x ∈ l -> caches dev (body x)) -> caches dev (for_each l body).
Proof.
  induction l as [|x l IH]; intros Hb; [apply caches_ret|].
  cbn [for_each]. apply caches_bind.
  - apply Hb. left.
  - intros _. apply IH. intros y Hy. apply Hb. right. exact Hy.
Qed.

Lemma caches_get_descriptor dev env value index len :
  caches dev (get_descriptor env value index len).
Proof.
  intros s. unfold get_descriptor, usb_ctrl_transfer_in. cbn [snd].
  split; [|split; [repeat split|split; intros i; left; reflexivity]].
  eexists. split; [reflexivity|]. repeat constructor.
Qed.

Lemma caches_cache_config dev env cfg_idx :
  0 <= cfg_idx < bNumConfigurations dev ->
  caches dev (cache_config env cfg_idx).
Proof.
  intros Hidx. unfold cache_config.
  apply caches_bind; [apply caches_get_descriptor|]. intros cfg_header.
  destruct (9 <=? length cfg_header)%nat; [|apply caches_ret].
  apply caches_bind; [apply caches_get_descriptor|]. intros full_cfg s.
  unfold modify. cbn [snd].
  split; [exists []; cbn; rewrite app_nil_r; auto|].
  split; [repeat split|]. split; [|intros i; left; reflexivity].
  intros i. cbn. destruct (decide (i = cfg_idx)) as [->|Hne].
  - right. exact Hidx.
  - left. apply lookup_insert_ne. congruence.
Qed.

Lemma caches_cache_string dev env index :
  index = iManufacturer dev \/ index = iProduct dev
  \/ index = iSerialNumber dev ->
  caches dev (cache_string env index).
Proof.
  intros Hidx. unfold cache_string.
  destruct (index =? 0) eqn:E0; [apply caches_ret|].
  apply Z.eqb_neq in E0.
  apply caches_try_except; [|intros _; apply caches_ret].
  apply caches_bind; [apply caches_get_descriptor|]. intros str_desc s.
  unfold modify. cbn [snd].
  split; [exists []; cbn; rewrite app_nil_r; auto|].
  split; [repeat split|]. split; [intros i; left; reflexivity|].
  intros i. cbn. destruct (decide (i = index)) as [->|Hne].
  - right. auto.
  - left. apply lookup_insert_ne. congruence.
Qed.

(** X20. [cache_descriptors], whether it returns or raises: every effect
    is an upstream read of a descriptor (standard GET_DESCRIPTOR,
    direction IN); nothing but the three cache fields changes; a
    configuration descriptor is stored only under an index below
    [bNumConfigurations], and a string descriptor only under
    [iManufacturer], [iProduct] or [iSerialNumber], and never under
    index 0. *)
Theorem cache_descriptors_confined env dev s :
  cache_step dev s (exec (cache_descriptors env dev) s).
Proof.
  unfold exec. revert s. change (caches dev (cache_descriptors env dev)).
  unfold cache_descriptors.
  apply caches_try_except; [|intros e; apply caches_raise].
  apply caches_bind; [apply caches_get_descriptor|]. intros dd.
  apply caches_bind.
  { intros s. unfold modify. cbn [snd].
    split; [exists []; cbn; rewrite app_nil_r; auto|].
    split; [repeat split|]. split; intros i; left; reflexivity. }
  intros _. apply caches_bind.
  { apply caches_for_each. intros i Hi.
    apply elem_of_seqZ in Hi. apply caches_cache_config. lia. }
  intros _. apply caches_bind; [apply caches_cache_string; auto|].
  intros _. apply caches_bind; [apply caches_cache_string; auto|].
  intros _. apply caches_cache_string; auto.
Qed.

Lemma cache_descriptors_confined_witness :
  string_descriptors
    (exec (cache_descriptors stringless_env printer_attributes)
          (init_state None ∅ ∅)) !! 0 = None.
Proof.
  destruct (cache_descriptors_confined stringless_env printer_attributes
              (init_state None ∅ ∅)) as (_ & _ & _ & Hstr).
  destruct (Hstr 0) as [E|[Hne _]]; [exact E | contradiction].
Defined.

Lemma returns_bind (m k : M unit) :
  returns_keeping_device_descriptor m ->
  returns_keeping_device_descriptor k ->
  returns_keeping_device_descriptor (bind m (fun _ => k)).
Proof.
  intros Hm Hk s. unfold bind. destruct (Hm s) as [Ho Hs].
  destruct (m s) as [o s1]. cbn [fst snd] in *. subst o.
  destruct (Hk s1) as [Ho' Hs']. split; congruence.
Qed.

Lemma returns_for_each {A} (l : list A) body :
  (forall x, returns_keeping_device_descriptor (body x)) ->
  returns_keeping_device_descriptor (for_each l body).
Proof.
  intros Hb. induction l as [|x l IH]; [intros s; split; reflexivity|].
  cbn [for_each]. apply returns_bind; [apply Hb | exact IH].
Qed.

Lemma returns_cache_string env index :
  returns_keeping_device_descriptor (cache_string env index).
Proof.
  intros s. unfold cache_string.
  destruct (index =? 0); [split; reflexivity|].
  unfold try_except, bind, get_descriptor, usb_ctrl_transfer_in, modify, ret.
  destruct (dev_ctrl_transfer_in env (trace s) _); split; reflexivity.
Qed.

Lemma returns_cache_config env cfg_idx :
  (forall t value len,
     dev_ctrl_transfer_in env t (Setup 128 6 value 0 len) <> None) ->
  returns_keeping_device_descriptor (cache_config env cfg_idx).
Proof.
  intros Hanswer s.
  unfold cache_config, bind, get_descriptor, usb_ctrl_transfer_in, modify,
    ret.
  destruct (dev_ctrl_transfer_in env (trace s) _) as [cfg_header|] eqn:E1;
    [|exfalso; exact (Hanswer _ _ _ E1)].
  destruct (9 <=? length cfg_header)%nat; [|split; reflexivity].
  cbn [fst snd trace log_effect].
  match goal with
  | |- context [dev_ctrl_transfer_in env (?t ++ ?l) ?p] =>
      destruct (dev_ctrl_transfer_in env (t ++ l) p) as [full_cfg|] eqn:E2;
        [|exfalso; exact (Hanswer _ _ _ E2)]
  end.
  split; reflexivity.
Qed.

(** [cache_descriptors] when every read with [wIndex = 0] is answered. *)
Lemma cache_descriptors_run env dev s dd :
  (forall t value len,
     dev_ctrl_transfer_in env t (Setup 128 6 value 0 len) <> None) ->
  dev_ctrl_transfer_in env (trace s) (Setup 128 6 256 0 18) = Some dd ->
  exists s2,
    cache_descriptors env dev s = (Return tt, s2) /\
    device_descriptor s2 = Some dd.
Proof.
  intros Hanswer E.
  assert (Htail : returns_keeping_device_descriptor
            (for_each (seqZ 0 (bNumConfigurations dev)) (cache_config env) ;;
             cache_string env (iManufacturer dev) ;;
             cache_string env (iProduct dev) ;;
             cache_string env (iSerialNumber dev))).
  { apply returns_bind.
    - apply returns_for_each. intros i.
      apply returns_cache_config, Hanswer.
    - apply returns_bind; [apply returns_cache_string|].
      apply returns_bind; apply returns_cache_string. }
  unfold cache_descriptors, try_except, bind at 1,
    get_descriptor at 1, usb_ctrl_transfer_in.
  rewrite E. unfold bind at 1, modify at 1.
  match goal with |- context [bind ?m ?k ?s1] =>
    destruct (Htail s1) as [Ho Hs];
    destruct (bind m k s1) as [o s2] end.
  cbn [fst snd] in *. subst o. exists s2. split; [reflexivity | exact Hs].
Qed.

(** X21. How [cache_descriptors] fails.  When the read of the device
    descriptor raises, it raises, with that read as its only effect and
    nothing cached.  When the upstream device answers every read of a
    device or configuration descriptor (the reads with [wIndex = 0]),
    it returns normally, whatever happens to the reads of the strings,
    and [device_descriptor] holds the answer to the first read. *)
Theorem cache_descriptors_failures env dev s :
  (dev_ctrl_transfer_in env (trace s) (Setup 128 6 256 0 18) = None ->
   cache_descriptors env dev s
   = (Raise USBError,
      log_effect (UpCtrlTransferIn (Setup 128 6 256 0 18)) s)) /\
  ((forall t value len,
      dev_ctrl_transfer_in env t (Setup 128 6 value 0 len) <> None) ->
   (cache_descriptors env dev s).1 = Return tt /\
   device_descriptor (exec (cache_descriptors env dev) s)
   = dev_ctrl_transfer_in env (trace s) (Setup 128 6 256 0 18)).
Proof.
  split.
  - intros Hfail.
    unfold cache_descriptors, try_except, bind at 1, get_descriptor at 1,
      usb_ctrl_transfer_in.
    rewrite Hfail. reflexivity.
  - intros Hanswer.
    destruct (dev_ctrl_transfer_in env (trace s) (Setup 128 6 256 0 18))
      as [dd|] eqn:E; [|exfalso; exact (Hanswer _ _ _ E)].
    destruct (cache_descriptors_run env dev s dd Hanswer E)
      as (s2 & Hrun & Hdd).
    unfold exec. rewrite Hrun. split; [reflexivity | exact Hdd].
Qed.

Lemma cache_descriptors_failures_witness :
  device_descriptor
    (exec (cache_descriptors stringless_env printer_attributes)
          (init_state None ∅ ∅))
  = Some printer_device_descriptor.
Proof.
  refine (proj2 (proj2 (cache_descriptors_failures stringless_env
                          printer_attributes (init_state None ∅ ∅)) _)).
  intros t value len. unfold stringless_env. cbn. discriminate.
Defined.

(** ** [ensure_clean_connection] *)

Lemma wait_for_disconnect_Some events rest :
  wait_for_disconnect events = Some rest ->
  exists skipped d,
    events = skipped ++ d :: rest /\ is_disconnect d = true /\
    Forall (fun raw => is_disconnect raw = false) skipped.
Proof.
  revert rest. induction events as [|raw events IH]; intros rest H;
    [discriminate|].
  cbn [wait_for_disconnect] in H.
  destruct (is_disconnect raw) eqn:E.
  - injection H as <-. exists [], raw. auto.
  - destruct (IH rest H) as (skipped & d & -> & Hd & Hs).
    exists (raw :: skipped), d. auto.
Qed.

Lemma wait_for_connect_Some events rest :
  wait_for_connect events = Some rest ->
  exists skipped c,
    events = skipped ++ c :: rest /\ is_connect c = true /\
    Forall (fun raw => is_connect raw = false) skipped.
Proof.
  revert rest. induction events as [|raw events IH]; intros rest H;
    [discriminate|].
  cbn [wait_for_connect] in H.
  destruct (is_connect raw) eqn:E.
  - injection H as <-. exists [], raw. auto.
  - destruct (IH rest H) as (skipped & c & -> & Hc & Hs).
    exists (raw :: skipped), c. auto.
Qed.

Lemma wait_for_disconnect_app skipped d rest :
  is_disconnect d = true ->
  exists rest', wait_for_disconnect (skipped ++ d :: rest) = Some rest' /\
                exists k, rest' = k ++ rest.
Proof.
  intros Hd. induction skipped as [|raw skipped IH]; cbn [app
    wait_for_disconnect].
  - rewrite Hd. exists rest. split; [reflexivity|]. exists []. reflexivity.
  - destruct (is_disconnect raw).
    + eexists. split; [reflexivity|]. exists (skipped ++ [d]).
      rewrite <- app_assoc. reflexivity.
    + exact IH.
Qed.

Lemma wait_for_connect_app skipped c rest :
  is_connect c = true ->
  is_Some (wait_for_connect (skipped ++ c :: rest)).
Proof.
  intros Hc. induction skipped as [|raw skipped IH]; cbn [app
    wait_for_connect].
  - rewrite Hc. eauto.
  - destruct (is_connect raw); [eauto | exact IH].
Qed.

(** X22. When [ensure_clean_connection], run with the flag [running]
    set, returns, it has set [host_connected] and changed nothing else,
    and the last event it fetched was a CONNECT or a CONTROL event,
    which it does not hand on.  If the very first event was a CONNECT
    or a CONTROL event, the session of an earlier run, that last event
    came after a DISCONNECT or RESET event later than the first. *)
Theorem ensure_clean_connection_returns_fresh events s rest s' :
  running s = true ->
  ensure_clean_connection events s = Some (rest, s') ->
  s' = set_host_connected true s /\
  exists first consumed last,
    events = first :: consumed ++ last :: rest /\
    is_connect last = true /\
    (is_connect first = true ->
     exists d, d ∈ consumed /\ is_disconnect d = true).
Proof.
  intros Hrunning. unfold ensure_clean_connection.
  destruct events as [|first events]; [discriminate|].
  rewrite Hrunning.
  set (event_type := (fetch_event first).1).
  assert (Hfirst : is_connect first
                   = (event_type =? USB_RAW_EVENT_CONNECT)
                     || (event_type =? USB_RAW_EVENT_CONTROL))
    by reflexivity.
  clearbody event_type. intros H.
  destruct (event_type =? USB_RAW_EVENT_CONNECT) eqn:E1.
  - destruct (wait_for_disconnect events) as [rest1|] eqn:Hd;
      [|discriminate].
    destruct (wait_for_connect rest1) as [rest2|] eqn:Hc; [|discriminate].
    injection H as <- <-. split; [reflexivity|].
    apply wait_for_disconnect_Some in Hd as (sk1 & d & -> & Hdd & _).
    apply wait_for_connect_Some in Hc as (sk2 & c & -> & Hcc & _).
    exists first, (sk1 ++ d :: sk2), c.
    split; [rewrite <- app_assoc; reflexivity|]. split; [exact Hcc|].
    intros _. exists d. split; [|exact Hdd].
    apply elem_of_app. right. left.
  - destruct (event_type =? USB_RAW_EVENT_DISCONNECT) eqn:E6.
    { destruct (wait_for_connect events) as [rest2|] eqn:Hc; [|discriminate].
      injection H as <- <-. split; [reflexivity|].
      apply wait_for_connect_Some in Hc as (sk2 & c & -> & Hcc & _).
      exists first, sk2, c. split; [reflexivity|]. split; [exact Hcc|].
      rewrite Hfirst. apply Z.eqb_eq in E6. subst event_type. discriminate. }
    destruct (event_type =? USB_RAW_EVENT_RESET) eqn:E5.
    { destruct (wait_for_connect events) as [rest2|] eqn:Hc; [|discriminate].
      injection H as <- <-. split; [reflexivity|].
      apply wait_for_connect_Some in Hc as (sk2 & c & -> & Hcc & _).
      exists first, sk2, c. split; [reflexivity|]. split; [exact Hcc|].
      rewrite Hfirst. apply Z.eqb_eq in E5. subst event_type. discriminate. }
    destruct (event_type =? USB_RAW_EVENT_CONTROL) eqn:E2.
    + destruct (wait_for_disconnect events) as [rest1|] eqn:Hd;
        [|discriminate].
      destruct (wait_for_connect rest1) as [rest2|] eqn:Hc; [|discriminate].
      injection H as <- <-. split; [reflexivity|].
      apply wait_for_disconnect_Some in Hd as (sk1 & d & -> & Hdd & _).
      apply wait_for_connect_Some in Hc as (sk2 & c & -> & Hcc & _).
      exists first, (sk1 ++ d :: sk2), c.
      split; [rewrite <- app_assoc; reflexivity|]. split; [exact Hcc|].
      intros _. exists d. split; [|exact Hdd].
      apply elem_of_app. right. left.
    + destruct (wait_for_connect events) as [rest2|] eqn:Hc; [|discriminate].
      injection H as <- <-. split; [reflexivity|].
      apply wait_for_connect_Some in Hc as (sk2 & c & -> & Hcc & _).
      exists first, sk2, c. split; [reflexivity|]. split; [exact Hcc|].
      rewrite Hfirst. discriminate.
Qed.

Lemma ensure_clean_connection_returns_fresh_witness :
  exists first consumed last,
    [plain_event x01; plain_event x03; plain_event x06; plain_event x01;
     control_event SET_ADDRESS_5]
    = first :: consumed ++ last :: [control_event SET_ADDRESS_5] /\
    is_connect last = true.
Proof.
  destruct (ensure_clean_connection_returns_fresh
              [plain_event x01; plain_event x03; plain_event x06;
               plain_event x01; control_event SET_ADDRESS_5]
              printer_state [control_event SET_ADDRESS_5]
              (set_host_connected true printer_state))
    as (_ & first & consumed & last & Hev & Hlast & _).
  - reflexivity.
  - vm_compute. reflexivity.
  - exists first, consumed, last. split; assumption.
Defined.

(** X23. [ensure_clean_connection], run with the flag [running] set,
    returns as soon as the events allow it: whatever the first event
    and whatever comes in between, once a DISCONNECT or RESET event
    and, later, a CONNECT or CONTROL event have been fetched, it
    returns. *)
Theorem ensure_clean_connection_terminates first mid d mid' c rest s :
  running s = true ->
  is_disconnect d = true ->
  is_connect c = true ->
  is_Some (ensure_clean_connection
             (first :: mid ++ d :: mid' ++ c :: rest) s).
Proof.
  intros Hrunning Hd Hc. unfold ensure_clean_connection.
  rewrite Hrunning.
  assert (Hwait : forall events, is_Some (wait_for_connect events) ->
            is_Some match wait_for_connect events with
                    | Some rest2 => Some (rest2, set_host_connected true s)
                    | None => None
                    end).
  { intros events [r Hr]. rewrite Hr. eauto. }
  assert (Hfresh : is_Some (wait_for_connect (mid ++ d :: mid' ++ c :: rest))).
  { replace (mid ++ d :: mid' ++ c :: rest)
      with ((mid ++ d :: mid') ++ c :: rest)
      by (rewrite <- app_assoc; reflexivity).
    apply wait_for_connect_app, Hc. }
  assert (Hdrain :
    is_Some match wait_for_disconnect (mid ++ d :: mid' ++ c :: rest) with
            | Some rest1 =>
                match wait_for_connect rest1 with
                | Some rest2 => Some (rest2, set_host_connected true s)
                | None => None
                end
            | None => None
            end).
  { destruct (wait_for_disconnect_app mid d (mid' ++ c :: rest) Hd)
      as (rest1 & -> & k & ->).
    apply Hwait. rewrite app_assoc. apply wait_for_connect_app, Hc. }
  destruct (_ =? USB_RAW_EVENT_CONNECT); [exact Hdrain|].
  destruct (_ =? USB_RAW_EVENT_DISCONNECT); [apply Hwait, Hfresh|].
  destruct (_ =? USB_RAW_EVENT_RESET); [apply Hwait, Hfresh|].
  destruct (_ =? USB_RAW_EVENT_CONTROL); [exact Hdrain|].
  apply Hwait, Hfresh.
Qed.

Lemma ensure_clean_connection_terminates_witness :
  is_Some (ensure_clean_connection
             [plain_event x02; plain_event x05; plain_event x01]
             printer_state).
Proof.
  apply (ensure_clean_connection_terminates (plain_event x02) []
           (plain_event x05) [] (plain_event x01) [] printer_state);
    [reflexivity | vm_compute; reflexivity | vm_compute; reflexivity].
Defined.

(** ** The forwarder threads *)

Lemma put_if_data_queued data queue :
  put_if_data data queue = queue ++ option_list (queued data).
Proof. destruct data; cbn; [rewrite app_nil_r|]; reflexivity. Qed.

Lemma in_received_S device ep_addr size n :
  in_received device ep_addr size (S n)
  = in_received device ep_addr size n
    ++ match device n ep_addr size with
       | ReadData data => option_list (queued data)
       | _ => []
       end.
Proof.
  unfold in_received. rewrite seq_S, omap_app. f_equal. simpl.
  destruct (device n ep_addr size) as [data| |]; reflexivity.
Qed.

Lemma out_received_S gadget ep_num size n :
  out_received gadget ep_num size (S n)
  = out_received gadget ep_num size n
    ++ match ep_read (gadget n) ep_num size with
       | Return data => option_list (queued data)
       | Raise _ => []
       end.
Proof.
  unfold out_received. rewrite seq_S, omap_app. f_equal. simpl.
  destruct (ep_read (gadget n) ep_num size) as [data|e]; reflexivity.
Qed.

Lemma read_size_bound ep_type size :
  read_size ep_type = Some size -> (size <= 4096)%nat.
Proof.
  unfold read_size.
  destruct (ep_type =? USB_ENDPOINT_XFER_BULK); [intros [= <-]; lia|].
  destruct (ep_type =? USB_ENDPOINT_XFER_INT); [intros [= <-]; lia|].
  discriminate.
Qed.

Lemma ep_write_returns ioctl ep_num data :
  0 <= ep_num < 65536 ->
  (length data <= 4096)%nat ->
  exists r, ep_write ioctl ep_num data = Return r.
Proof.
  intros Hep Hlen. unfold ep_write, ep_io_packet.
  rewrite (pack_H_Some ep_num Hep), (pack_H_Some 0) by lia.
  rewrite pack_I_Some by lia. eauto.
Qed.

Lemma Forall_put_if_data (P : bytes -> Prop) data queue :
  P data -> Forall P queue -> Forall P (put_if_data data queue).
Proof.
  intros Hd Hq. destruct data; [exact Hq|].
  apply Forall_app. split; [exact Hq | constructor; auto].
Qed.

(** X24. The forwarding of an IN endpoint keeps the order and the
    content.  For a bulk or interrupt endpoint whose gadget handle fits
    16 bits and a device that returns no more than it is asked for: in
    every interleaving of the turns of the reader and of the writer,
    the chunks handed to EP_WRITE, followed by those still on the
    queue, are exactly the non-empty chunks that the device has
    returned so far, in the order of the reads; the writer never
    stops. *)
Theorem in_forwarder_preserves_order
    device ioctl ep_addr ep_type ep_num size schedule :
  0 <= ep_num < 65536 ->
  read_size ep_type = Some size ->
  (forall k data, device k ep_addr size = ReadData data ->
                  (length data <= size)%nat) ->
  let f := run_forwarder (endpoint_in_reader device ep_addr ep_type)
                         (endpoint_in_writer ioctl ep_num)
                         schedule new_forwarder in
  fw_sent f ++ fw_queue f = in_received device ep_addr size (fw_reads f) /\
  fw_writer_alive f = true.
Proof.
  intros Hep Hsize Hdev f.
  pose proof (read_size_bound _ _ Hsize) as Hbound.
  assert (Hinv : forall schedule f0,
    (fw_sent f0 ++ fw_queue f0
     = in_received device ep_addr size (fw_reads f0) /\
     fw_writer_alive f0 = true /\
     Forall (fun d => (length d <= size)%nat) (fw_queue f0)) ->
    let f1 := run_forwarder (endpoint_in_reader device ep_addr ep_type)
                            (endpoint_in_writer ioctl ep_num) schedule f0 in
    fw_sent f1 ++ fw_queue f1
    = in_received device ep_addr size (fw_reads f1) /\
    fw_writer_alive f1 = true).
  { clear f schedule. intros schedule.
    induction schedule as [|t schedule IH]; intros f0 (Heq & Halive & Hq).
    - split; assumption.
    - cbn [run_forwarder fold_left]. apply IH. destruct t.
      + unfold endpoint_in_reader.
        destruct (fw_reader_alive f0); [|auto].
        rewrite Hsize.
        destruct (device (fw_reads f0) ep_addr size) as [data| |] eqn:Ed;
          cbn [fw_sent fw_queue fw_reads fw_writer_alive];
          rewrite in_received_S, Ed.
        * rewrite put_if_data_queued, app_assoc, Heq.
          split; [reflexivity|]. split; [exact Halive|].
          rewrite <- put_if_data_queued.
          apply Forall_put_if_data; [eapply Hdev; eauto | exact Hq].
        * rewrite app_nil_r. auto.
        * rewrite app_nil_r. auto.
      + unfold endpoint_in_writer. rewrite Halive.
        destruct (fw_queue f0) as [|data queue] eqn:Eq; [rewrite Eq; auto|].
        apply Forall_cons in Hq as [Hd Hq].
        destruct (ep_write_returns ioctl ep_num data Hep) as (r & ->);
          [lia|].
        cbn [fw_sent fw_queue fw_reads fw_writer_alive].
        rewrite <- app_assoc. auto. }
  apply Hinv. cbn. auto.
Qed.

Lemma in_forwarder_preserves_order_witness :
  let device := fun (k : nat) (_ : Z) (_ : nat) =>
                  match k with
                  | O => ReadTimeout
                  | 1%nat => ReadData []
                  | _ => ReadData [x41; x42]
                  end in
  fw_sent (run_forwarder (endpoint_in_reader device 129 2)
                         (endpoint_in_writer (fun _ => None) 1)
                         [ReaderTurn; WriterTurn; ReaderTurn; ReaderTurn;
                          WriterTurn]
                         new_forwarder)
  = [[x41; x42]].
Proof.
  intros device.
  destruct (in_forwarder_preserves_order device (fun _ => None) 129 2 1
              4096%nat
              [ReaderTurn; WriterTurn; ReaderTurn; ReaderTurn; WriterTurn])
    as [_ _].
  - lia.
  - reflexivity.
  - intros [|[|k]] data; cbn; intros [= <-]; cbn; lia.
  - vm_compute. reflexivity.
Defined.

(** X25. An IN endpoint that forwards nothing.  When the endpoint is
    neither bulk nor interrupt (isochronous, say), or when its gadget
    handle does not fit 16 bits (the -1 of a failed EP_ENABLE), nothing
    is ever handed to EP_WRITE, in any interleaving of the two threads,
    whatever the device returns. *)
Theorem in_forwarder_dead_end
    device ioctl ep_addr ep_type ep_num schedule :
  read_size ep_type = None \/ ~ 0 <= ep_num < 65536 ->
  fw_sent (run_forwarder (endpoint_in_reader device ep_addr ep_type)
                         (endpoint_in_writer ioctl ep_num)
                         schedule new_forwarder) = [].
Proof.
  intros Hdead.
  assert (Hinv : forall schedule f0,
    (fw_sent f0 = [] /\ (read_size ep_type = None -> fw_queue f0 = [])) ->
    fw_sent (run_forwarder (endpoint_in_reader device ep_addr ep_type)
                           (endpoint_in_writer ioctl ep_num) schedule f0)
    = []).
  { clear schedule. intros schedule.
    induction schedule as [|t schedule IH]; intros f0 (Hsent & Hq).
    - exact Hsent.
    - cbn [run_forwarder fold_left]. apply IH. destruct t.
      + unfold endpoint_in_reader.
        destruct (fw_reader_alive f0); [|auto].
        destruct (read_size ep_type) as [size|] eqn:Es; [|auto].
        destruct (device (fw_reads f0) ep_addr size);
          cbn [fw_sent fw_queue]; (split; [exact Hsent | discriminate]).
      + unfold endpoint_in_writer.
        destruct (fw_writer_alive f0); [|auto].
        destruct (fw_queue f0) as [|data queue] eqn:Eq; [rewrite Eq; auto|].
        destruct Hdead as [Hnone|Hhandle].
        * specialize (Hq Hnone). discriminate.
        * unfold ep_write, ep_io_packet.
          rewrite (pack_H_None ep_num Hhandle).
          cbn [fw_sent fw_queue]. split; [exact Hsent|].
          intros Hnone. specialize (Hq Hnone). discriminate. }
  apply Hinv. cbn. auto.
Qed.

Lemma in_forwarder_dead_end_witness :
  fw_sent (run_forwarder
             (endpoint_in_reader (fun _ _ _ => ReadData [x41]) 129 2)
             (endpoint_in_writer (fun _ => Some 1) (-1))
             [ReaderTurn; WriterTurn; ReaderTurn; WriterTurn]
             new_forwarder) = [].
Proof.
  apply in_forwarder_dead_end. right. lia.
Defined.

(** X30. The reader of an IN endpoint ends with its first read that has
    data, because its log line raises after [queue.put].  So in every
    interleaving of the two threads, whatever the device returns and
    whatever the endpoint: as long as the reader is in its loop, nothing
    is queued and nothing has been handed to EP_WRITE; and over the
    whole life of the two threads at most one chunk is queued or handed
    to EP_WRITE. *)
Theorem in_reader_stops_after_first_chunk
    device ioctl ep_addr ep_type ep_num schedule :
  let f := run_forwarder (endpoint_in_reader device ep_addr ep_type)
                         (endpoint_in_writer ioctl ep_num)
                         schedule new_forwarder in
  (fw_reader_alive f = true -> fw_sent f = [] /\ fw_queue f = []) /\
  (length (fw_sent f) + length (fw_queue f) <= 1)%nat.
Proof.
  intros f. subst f.
  assert (Hinv : forall schedule f0,
    ((fw_reader_alive f0 = true -> fw_sent f0 = [] /\ fw_queue f0 = []) /\
     (length (fw_sent f0) + length (fw_queue f0) <= 1)%nat) ->
    let f1 := run_forwarder (endpoint_in_reader device ep_addr ep_type)
                            (endpoint_in_writer ioctl ep_num) schedule f0 in
    (fw_reader_alive f1 = true -> fw_sent f1 = [] /\ fw_queue f1 = []) /\
    (length (fw_sent f1) + length (fw_queue f1) <= 1)%nat).
  { clear schedule. intros schedule.
    induction schedule as [|t schedule IH]; intros f0 (Hloop & Hone).
    - split; assumption.
    - cbn [run_forwarder fold_left]. apply IH. destruct t.
      + unfold endpoint_in_reader.
        destruct (fw_reader_alive f0) eqn:Ealive; [|rewrite Ealive; auto].
        destruct (Hloop eq_refl) as [Hsent Hqueue].
        destruct (read_size ep_type) as [size|]; [|rewrite Ealive; auto].
        destruct (device (fw_reads f0) ep_addr size) as [[|b data]| |];
          cbn [fw_sent fw_queue fw_reader_alive put_if_data has_data negb];
          rewrite Hsent, Hqueue; cbn; split;
          first [discriminate | lia | auto].
      + unfold endpoint_in_writer.
        destruct (fw_writer_alive f0); [|auto].
        destruct (fw_queue f0) as [|data queue] eqn:Eq; [rewrite Eq; auto|].
        assert (Hdead : fw_reader_alive f0 = false).
        { destruct (fw_reader_alive f0); [|reflexivity].
          destruct (Hloop eq_refl) as [_ Hq]. discriminate Hq. }
        cbn [length] in Hone.
        destruct (ep_write ioctl ep_num data);
          cbn [fw_sent fw_queue fw_reader_alive];
          rewrite Hdead; (split; [discriminate|]);
          rewrite ?length_app; cbn [length]; lia. }
  apply Hinv. cbn. split; [auto | lia].
Qed.

Lemma in_reader_stops_after_first_chunk_witness :
  let f := run_forwarder
             (endpoint_in_reader (fun _ _ _ => ReadData [x41]) 129 2)
             (endpoint_in_writer (fun _ => Some 1) 1)
             [ReaderTurn; WriterTurn; ReaderTurn; WriterTurn; ReaderTurn]
             new_forwarder in
  fw_sent f = [[x41]] /\ fw_reads f = 1%nat /\
  (length (fw_sent f) + length (fw_queue f) <= 1)%nat.
Proof.
  intros f. split; [reflexivity|]. split; [reflexivity|].
  exact (proj2 (in_reader_stops_after_first_chunk
                  (fun _ _ _ => ReadData [x41]) (fun _ => Some 1) 129 2 1
                  [ReaderTurn; WriterTurn; ReaderTurn; WriterTurn;
                   ReaderTurn])).
Defined.

(** X26. The forwarding of an OUT endpoint keeps the order and the
    content.  For a bulk or interrupt endpoint with an OUT address: in
    every interleaving of the turns of the reader and of the writer,
    the chunks handed to [usb_device.write], followed by those still on
    the queue, are exactly the non-empty chunks that [ep_read] has
    returned so far, in the order of the reads, and none of them is
    longer than the length that the reader asks for. *)
Theorem out_forwarder_preserves_order
    gadget upstream ep_addr ep_type ep_num size schedule :
  Z.land ep_addr 128 = 0 ->
  read_size ep_type = Some size ->
  let f := run_forwarder (endpoint_out_reader gadget ep_num ep_type)
                         (endpoint_out_writer upstream ep_addr)
                         schedule new_forwarder in
  fw_sent f ++ fw_queue f = out_received gadget ep_num size (fw_reads f) /\
  Forall (fun d => (length d <= size)%nat) (fw_sent f).
Proof.
  intros Hout Hsize f.
  assert (Hinv : forall schedule f0,
    (fw_sent f0 ++ fw_queue f0
     = out_received gadget ep_num size (fw_reads f0) /\
     Forall (fun d => (length d <= size)%nat) (fw_sent f0) /\
     Forall (fun d => (length d <= size)%nat) (fw_queue f0)) ->
    let f1 := run_forwarder (endpoint_out_reader gadget ep_num ep_type)
                            (endpoint_out_writer upstream ep_addr)
                            schedule f0 in
    fw_sent f1 ++ fw_queue f1
    = out_received gadget ep_num size (fw_reads f1) /\
    Forall (fun d => (length d <= size)%nat) (fw_sent f1)).
  { clear f schedule. intros schedule.
    induction schedule as [|t schedule IH]; intros f0 (Heq & Hs & Hq).
    - split; assumption.
    - cbn [run_forwarder fold_left]. apply IH. destruct t.
      + unfold endpoint_out_reader.
        destruct (fw_reader_alive f0); [|auto].
        rewrite Hsize.
        destruct (ep_read (gadget (fw_reads f0)) ep_num size)
          as [data|e] eqn:Ed;
          cbn [fw_sent fw_queue fw_reads]; rewrite out_received_S, Ed.
        * rewrite put_if_data_queued, app_assoc, Heq.
          split; [reflexivity|]. split; [exact Hs|].
          rewrite <- put_if_data_queued.
          apply Forall_put_if_data; [|exact Hq].
          eapply ep_read_length_le. exact Ed.
        * rewrite app_nil_r. auto.
      + unfold endpoint_out_writer.
        destruct (fw_writer_alive f0); [|auto].
        destruct (fw_queue f0) as [|data queue] eqn:Eq; [rewrite Eq; auto|].
        rewrite Hout. cbn [Z.eqb negb].
        apply Forall_cons in Hq as [Hd Hq].
        cbn [fw_sent fw_queue fw_reads].
        rewrite <- app_assoc. split; [exact Heq|].
        split; [|exact Hq].
        apply Forall_app. split; [exact Hs | constructor; auto]. }
  apply Hinv. cbn. auto.
Qed.

Lemma out_forwarder_preserves_order_witness :
  let gadget := fun (k : nat) (_ : bytes) =>
                  Some (2, [x00; x00; x00; x00; x02; x00; x00; x00;
                            xde; xad]) in
  Forall (fun d => (length d <= 64)%nat)
         (fw_sent (run_forwarder (endpoint_out_reader gadget 2 3)
                                 (endpoint_out_writer (fun _ _ _ => true) 2)
                                 [ReaderTurn; WriterTurn] new_forwarder)).
Proof.
  intros gadget.
  apply (out_forwarder_preserves_order gadget (fun _ _ _ => true) 2 3 2
           64%nat [ReaderTurn; WriterTurn]); reflexivity.
Defined.

(** ** From the cache to the host *)

(** X27. The device descriptor that [cache_descriptors] fetched is what
    the host gets.  When the upstream device answers the reads of the
    device and configuration descriptors and its device descriptor is
    not empty, a GET_DESCRIPTOR(device) handled after
    [cache_descriptors] causes no upstream transfer: its one effect is
    the EP0 write of that descriptor, truncated to [wLength] and with
    [bMaxPacketSize0] adjusted. *)
Theorem cached_device_descriptor_served env dev s ctrl_data p b dd :
  (forall t value len,
     dev_ctrl_transfer_in env t (Setup 128 6 value 0 len) <> None) ->
  dev_ctrl_transfer_in env (trace s) (Setup 128 6 256 0 18)
  = Some (b :: dd) ->
  unpack_setup ctrl_data = Some p ->
  is_get_descriptor p = true ->
  desc_type p = USB_DT_DEVICE ->
  let s1 := exec (cache_descriptors env dev) s in
  exec (handle_control_request env ctrl_data) s1
  = log_effect
      (GadgetEp0Write (adjust_bMaxPacketSize0 (upto (wLength p) (b :: dd))))
      s1.
Proof.
  intros Hanswer Hdd Hp Hgd Hdev s1.
  assert (Hcached : device_descriptor s1 = Some (b :: dd)).
  { subst s1.
    destruct (cache_descriptors_run env dev s (b :: dd) Hanswer Hdd)
      as (s2 & Hrun & Hs2).
    unfold exec. rewrite Hrun. exact Hs2. }
  assert (Hentry : cache_entry s1 p = Some (b :: dd)).
  { rewrite (cache_entry_device s1 p Hdev), Hcached. reflexivity. }
  unfold exec. rewrite (get_descriptor_cached env _ _ _ _ Hp Hgd Hentry).
  rewrite Hdev. reflexivity.
Qed.

Lemma cached_device_descriptor_served_witness :
  let s1 := exec (cache_descriptors stringless_env printer_attributes)
                 (init_state None ∅ ∅) in
  trace (exec (handle_control_request stringless_env
                 GET_DESCRIPTOR_device_18) s1)
  = trace s1
    ++ [GadgetEp0Write
          [x12; x01; x00; x02; xff; x00; x00; x40; xb8; x04;
           x02; x02; x00; x01; x01; x02; x03; x01]].
Proof.
  intros s1. subst s1.
  rewrite (cached_device_descriptor_served stringless_env
             printer_attributes (init_state None ∅ ∅)
             GET_DESCRIPTOR_device_18 (Setup 128 6 256 0 18) x12
             [x01; x00; x02; xff; x00; x00; x08; xb8; x04;
              x02; x02; x00; x01; x01; x02; x03; x01]).
  - reflexivity.
  - intros t value len. unfold stringless_env. cbn. discriminate.
  - reflexivity.
  - reflexivity.
  - reflexivity.
  - reflexivity.
Defined.

(** X28. A configuration or string descriptor in the cache is served
    back whole when the host asks for at least its length: the one EP0
    write carries the cached blob itself; and asking for length 0 gives
    an empty EP0 write. *)
Theorem cached_descriptor_served_whole env ctrl_data p s blob :
  unpack_setup ctrl_data = Some p ->
  is_get_descriptor p = true ->
  desc_type p <> USB_DT_DEVICE ->
  cache_entry s p = Some blob ->
  (Z.of_nat (length blob) <= wLength p ->
   exec (handle_control_request env ctrl_data) s
   = log_effect (GadgetEp0Write blob) s) /\
  (wLength p = 0 ->
   exec (handle_control_request env ctrl_data) s
   = log_effect (GadgetEp0Write []) s).
Proof.
  intros Hp Hgd Hdev Hentry.
  unfold exec. rewrite (get_descriptor_cached env _ _ _ _ Hp Hgd Hentry).
  apply Z.eqb_neq in Hdev. rewrite Hdev. cbn [snd]. unfold upto.
  split.
  - intros Hlen. rewrite take_ge by lia. reflexivity.
  - intros ->. reflexivity.
Qed.

Lemma cached_descriptor_served_whole_witness :
  trace (exec (handle_control_request failing_env
                 [x80; x06; x01; x03; x09; x04; xff; x00]) printer_state)
  = [GadgetEp0Write [x04; x03; x09; x04]].
Proof.
  destruct (cached_descriptor_served_whole failing_env
              [x80; x06; x01; x03; x09; x04; xff; x00]
              (Setup 128 6 769 1033 255) printer_state [x04; x03; x09; x04])
    as [Hwhole _]; [reflexivity | reflexivity | discriminate | reflexivity |].
  rewrite Hwhole; [reflexivity | cbn; lia].
Defined.

(** X29. The data stage of a forwarded OUT request.  [ep0_read] returns
    exactly [wLength] bytes when its ioctl succeeds and no byte when it
    fails; in both cases the request goes upstream with what was
    returned, so that after a failed EP0 read the upstream device gets
    the request with empty data. *)
Theorem out_data_stage env ctrl_data p s :
  unpack_setup ctrl_data = Some p ->
  is_dir_in p = false ->
  0 < wLength p ->
  exists data rest,
    trace (exec (handle_control_request env ctrl_data) s)
    = trace s ++ GadgetEp0Read (wLength p)
        :: UpCtrlTransferOut p (Some data) :: rest /\
    match ioctl_ep0_read env (trace s) (wLength p) with
    | Some _ => length data = Z.to_nat (wLength p)
    | None => data = []
    end.
Proof.
  intros Hp Hout Hlen.
  unfold exec, handle_control_request. rewrite Hp.
  unfold try_except, bind, ret.
  rewrite Hout, andb_false_r. cbn [negb].
  apply Z.ltb_lt in Hlen. rewrite Hlen.
  pose proof (ep0_read_state env (wLength p) s) as Hs1.
  assert (Hdata : exists data,
            (ep0_read env (wLength p) s).1 = Return data /\
            match ioctl_ep0_read env (trace s) (wLength p) with
            | Some _ => length data = Z.to_nat (wLength p)
            | None => data = []
            end).
  { unfold ep0_read. cbn [fst]. eexists. split; [reflexivity|].
    destruct (ioctl_ep0_read env (trace s) (wLength p)) as [kernel|];
      [|reflexivity].
    rewrite length_slice; [lia|].
    rewrite length_ioctl_into. unfold ep_io_buffer.
    rewrite !length_app, length_replicate. cbn [length pack_u16 pack_u32].
    lia. }
  destruct Hdata as (data & Hret & Hlength).
  destruct (ep0_read env (wLength p) s) as [o s1].
  cbn [fst snd] in Hret, Hs1. subst o s1.
  unfold usb_ctrl_transfer_out. cbn [fst snd trace log_effect].
  exists data.
  destruct (dev_ctrl_transfer_out env _ p (Some data)) as [r|].
  - destruct (r <? 0); unfold raise, ep0_stall;
      cbn [fst snd trace log_effect]; rewrite <- ?app_assoc;
      eexists; (split; [reflexivity | exact Hlength]).
  - unfold ep0_stall. cbn [fst snd trace log_effect].
    rewrite <- ?app_assoc. eexists. split; [reflexivity | exact Hlength].
Qed.

Lemma out_data_stage_witness :
  exists rest,
    trace (exec (handle_control_request no_endpoint_env vendor_out_2)
                printer_state)
    = GadgetEp0Read 2
        :: UpCtrlTransferOut (Setup 64 1 0 0 2) (Some []) :: rest.
Proof.
  destruct (out_data_stage no_endpoint_env vendor_out_2 (Setup 64 1 0 0 2)
              printer_state) as (data & rest & Ht & Hdata);
    [reflexivity | reflexivity | cbn; lia |].
  cbn in Hdata. subst data. exists rest. exact Ht.
Defined.
